(** * REI Nationwide API server: authentication envelope, audit log and
      request handlers of [src/api/main.py], as a shallow embedding.

    Handlers are functions in a state-and-exception monad over a [world]
    (the two SQLite tables the handlers touch, the calls made to the
    upstream providers).  What a handler cannot decide itself (the clock,
    storage faults, upstream replies, the bcrypt salt) is read from an
    [env] record, one per request.

    Embedded: the auth helpers, [log_activity], the provider clients,
    [register], [login], [search_properties], [skip_trace], [ai_query],
    [list_users] and [get_activity].  [get_me], [lookup_property],
    [get_comps] and [search_buyers] are left out. *)

From Stdlib Require Import ZArith List String Ascii Bool Lia Permutation Sorted.
From Stdlib Require Import DecimalString.
Import ListNotations.
Open Scope string_scope.
Open Scope Z_scope.
Open Scope list_scope.

(** ** Python values as far as the handlers inspect them *)

(** JSON documents: the decoded token payload, upstream payloads and
    replies, handler responses.  An object keeps its items in order and
    holds each key once. *)
#[local] Set Warnings "-register-all".
Inductive json : Type :=
| JNull
| JBool (b : bool)
| JInt (z : Z)
| JStr (s : string)
| JArr (l : list json)
| JObj (o : list (string * json)).

Abbreviation dict := (list (string * json)).

(** Exceptions that are not [HTTPException]: FastAPI answers them with
    status 500. *)
Inductive pyexn : Type :=
| KeyError | IndexError | TypeError | AttributeError | OverflowError
| ValueError | SqliteError | HttpxError.

(** What evaluating a handler (or a dependency) ends in. *)
Inductive outcome (A : Type) : Type :=
| Return (a : A)
| HTTPException (status_code : Z) (detail : string)
| Uncaught (e : pyexn).
Arguments Return {A} a.
Arguments HTTPException {A} status_code detail.
Arguments Uncaught {A} e.

(** The status line the client sees. *)
Definition http_status {A} (o : outcome A) : Z :=
  match o with
  | Return _ => 200
  | HTTPException s _ => s
  | Uncaught _ => 500
  end.

Definition succeeded {A} (o : outcome A) : bool :=
  match o with Return _ => true | _ => false end.

(** [d.get(k)] / [k in d] on a dict. *)
Fixpoint dict_get (k : string) (d : dict) : option json :=
  match d with
  | [] => None
  | (k', v) :: d' => if String.eqb k k' then Some v else dict_get k d'
  end.

(** [bool(x)]: [None], [False], [0], [""], [[]] and [{}] are falsy. *)
Definition truthy (j : json) : bool :=
  match j with
  | JNull => false
  | JBool b => b
  | JInt z => negb (z =? 0)
  | JStr s => negb (String.eqb s "")
  | JArr l => match l with [] => false | _ => true end
  | JObj o => match o with [] => false | _ => true end
  end.

(** [x.get(k, default)]: only a dict has [get]. *)
Definition py_get (x : json) (k : string) (default : json) : outcome json :=
  match x with
  | JObj o => Return (match dict_get k o with Some v => v | None => default end)
  | _ => Uncaught AttributeError
  end.

(** [x[k]] with a string key. *)
Definition py_item (x : json) (k : string) : outcome json :=
  match x with
  | JObj o => match dict_get k o with Some v => Return v | None => Uncaught KeyError end
  | _ => Uncaught TypeError
  end.

(** [x[0]]. *)
Definition py_first (x : json) : outcome json :=
  match x with
  | JArr (a :: _) => Return a
  | JArr [] => Uncaught IndexError
  | JStr (String c _) => Return (JStr (String c EmptyString))
  | JStr EmptyString => Uncaught IndexError
  | JObj _ => Uncaught KeyError
  | _ => Uncaught TypeError
  end.

(** [x in roles] for a list of strings: equality with one of them. *)
Definition in_strs (x : json) (roles : list string) : bool :=
  match x with
  | JStr r => existsb (String.eqb r) roles
  | _ => false
  end.

(** [s[:n]]. *)
Definition str_prefix (n : nat) (s : string) : string := substring 0 n s.

(** ** Storage: the [users] and [activity_log] tables *)

(** A value bound to a [?] of a statement. *)
Inductive sqlval : Type :=
| SqlNull
| SqlInt (z : Z)
| SqlText (s : string).

(** The [sqlite3] adapter: [None], [int], [bool] and [str] are bound,
    an integer outside 64 bits raises [OverflowError], a list or a dict
    is refused. *)
Definition sql_bind (j : json) : outcome sqlval :=
  match j with
  | JNull => Return SqlNull
  | JBool b => Return (SqlInt (if b then 1 else 0))
  | JInt z =>
      if (- 2 ^ 63 <=? z) && (z <? 2 ^ 63) then Return (SqlInt z)
      else Uncaught OverflowError
  | JStr s => Return (SqlText s)
  | JArr _ | JObj _ => Uncaught SqliteError
  end.

Record user_row : Type := {
  u_id : Z;
  u_email : string;
  u_password_hash : string;
  u_name : string;
  u_role : string;
  u_is_active : bool;
  u_created_at : Z;
  u_last_login : option Z
}.

Record activity_row : Type := {
  a_id : Z;
  a_user_id : sqlval;
  a_action : string;
  a_endpoint : option string;
  a_details : option string;
  a_ip_address : option string;
  a_created_at : Z
}.

(** A call that left the process towards a provider. *)
Inductive upstream_call : Type :=
| RealEstateCall (endpoint : string) (payload : json)
| OpenAICall (payload : json).

(** Everything a request can change.  [users_seq] and [activity_seq] are
    the AUTOINCREMENT counters; [issued] lists the tokens [jwt.encode]
    has produced, oldest first (bookkeeping of the model, so that
    "no token was issued" can be said). *)
Record world : Type := {
  users : list user_row;
  users_seq : Z;
  activity_log : list activity_row;
  activity_seq : Z;
  upstream_calls : list upstream_call;
  issued : list string
}.

(** The statements the handlers execute. *)
Inductive db_stmt : Type :=
| SelectUserByEmail | InsertUser | UpdateLastLogin | SelectUserById
| SelectUsers | InsertActivity | SelectActivity.

Inductive http_reply : Type :=
| HttpJson (body : json)
| HttpFailed (msg : string).

(** What the surroundings decide during one request: the clock in whole
    seconds (UTC), which statements fail with a [sqlite3.Error], what the
    real-estate provider and the AI provider answer, the bcrypt salt. *)
Record env : Type := {
  utcnow : Z;
  db_fault : db_stmt -> bool;
  realestate_reply : string -> json -> http_reply;
  openai_reply : json -> http_reply;
  salt : string
}.

(** [E] with statement [st] failing. *)
Definition db_stmt_eqb (a b : db_stmt) : bool :=
  match a, b with
  | SelectUserByEmail, SelectUserByEmail | InsertUser, InsertUser
  | UpdateLastLogin, UpdateLastLogin | SelectUserById, SelectUserById
  | SelectUsers, SelectUsers | InsertActivity, InsertActivity
  | SelectActivity, SelectActivity => true
  | _, _ => false
  end.

Definition with_fault (st : db_stmt) (E : env) : env :=
  {| utcnow := utcnow E;
     db_fault := fun st' => if db_stmt_eqb st st' then true else db_fault E st';
     realestate_reply := realestate_reply E;
     openai_reply := openai_reply E;
     salt := salt E |}.

(** [Config]: the two settings read from the process environment; the
    algorithm and the lifetime are constants of the source. *)
Record Config : Type := {
  JWT_SECRET : string;
  OPENAI_API_KEY : string
}.
Definition JWT_ALGORITHM : string := "HS256".
Definition JWT_EXPIRY_HOURS : Z := 24.

(** [request.client] is [None] when the server does not know the peer. *)
Record Request : Type := { client : option string }.

(** ** The monad of handlers *)

Definition M (A : Type) : Type := world -> outcome A * world.

Definition ret {A} (a : A) : M A := fun w => (Return a, w).

Definition bind {A B} (m : M A) (f : A -> M B) : M B :=
  fun w =>
    match m w with
    | (Return a, w') => f a w'
    | (HTTPException s d, w') => (HTTPException s d, w')
    | (Uncaught e, w') => (Uncaught e, w')
    end.

(** An expression that returns or raises without touching the world. *)
Definition lift {A} (o : outcome A) : M A := fun w => (o, w).

Definition raise_http {A} (status : Z) (detail : string) : M A :=
  lift (HTTPException status detail).

Definition raise {A} (e : pyexn) : M A := lift (Uncaught e).

Definition gets {A} (f : world -> A) : M A := fun w => (Return (f w), w).

Definition modify (f : world -> world) : M unit := fun w => (Return tt, f w).

Declare Scope handler_scope.
Delimit Scope handler_scope with handler.
Notation "x <- c ;; k" := (bind c (fun x => k))
  (at level 61, c at next level, right associativity) : handler_scope.
Notation "c ;;; k" := (bind c (fun _ => k))
  (at level 61, right associativity) : handler_scope.
Open Scope handler_scope.

(** A statement either fails with [sqlite3.Error] or goes through. *)
Definition db_exec (E : env) (st : db_stmt) : M unit :=
  if db_fault E st then raise SqliteError else ret tt.

(** [request.client.host]. *)
Definition client_host (request : Request) : outcome string :=
  match client request with
  | Some h => Return h
  | None => Uncaught AttributeError
  end.

(** The rowid an AUTOINCREMENT table gives the next row: one more than
    the largest rowid the table has ever held. *)
Definition next_rowid (seq : Z) (ids : list Z) : Z :=
  1 + fold_right Z.max seq ids.

(** ** The libraries the server calls *)

(** A compact JWS after base64url and JSON decoding. *)
Record jws : Type := {
  jws_alg : string;
  jws_input : string;
  jws_signature : string;
  jws_payload : dict
}.

(** PyJWT's codec and MAC and passlib's bcrypt, taken as given.
    [jws_parse] is [None] for a string that is not three base64url
    segments holding a JSON header and a JSON object; [bcrypt_verify] is
    [None] where passlib raises (a stored value that is no bcrypt hash). *)
Class Libraries : Type := {
  hmac_sha256 : string -> string -> string;
  jws_signing_input : string -> dict -> string;
  jws_compact : string -> string -> string;
  jws_parse : string -> option jws;
  bcrypt_hash : string -> string -> string;
  bcrypt_verify : string -> string -> option bool
}.

(** The exceptions of [jwt.decode]; each is an [InvalidTokenError]. *)
Inductive jwt_exception : Type :=
| DecodeError | InvalidAlgorithmError | InvalidSignatureError
| ExpiredSignatureError.

Definition is_ExpiredSignatureError (e : jwt_exception) : bool :=
  match e with ExpiredSignatureError => true | _ => false end.

Definition is_InvalidTokenError (e : jwt_exception) : bool := true.

Inductive jwt_result : Type :=
| Decoded (payload : dict)
| JwtRaise (e : jwt_exception).

Section Server.

Context {L : Libraries}.
Variable config : Config.

(** [jwt.encode(payload, key, algorithm)]. *)
Definition jwt_encode (payload : dict) (key alg : string) : string :=
  let input := jws_signing_input alg payload in
  jws_compact input (hmac_sha256 key input).

(** [jwt.decode(token, key, algorithms=[...])] at clock [now], with
    PyJWT's default options: structure, then algorithm, then signature,
    then the [exp] claim when the payload has one (a token is expired
    from the instant [exp] on; an [exp] that is not an integer is taken
    as a decode error).  The claims [create_token] never emits ([nbf],
    [iat], [aud]) are not modelled. *)
Definition jwt_decode (token key : string) (algorithms : list string) (now : Z)
  : jwt_result :=
  match jws_parse token with
  | None => JwtRaise DecodeError
  | Some t =>
      if negb (existsb (String.eqb (jws_alg t)) algorithms)
      then JwtRaise InvalidAlgorithmError
      else if negb (String.eqb (hmac_sha256 key (jws_input t)) (jws_signature t))
      then JwtRaise InvalidSignatureError
      else match dict_get "exp" (jws_payload t) with
           | None => Decoded (jws_payload t)
           | Some (JInt e) =>
               if e <=? now then JwtRaise ExpiredSignatureError
               else Decoded (jws_payload t)
           | Some _ => JwtRaise DecodeError
           end
  end.

(** ** Auth helpers *)

Definition token_payload (now : Z) (user_id : Z) (email role : string) : dict :=
  [ ("user_id", JInt user_id);
    ("email", JStr email);
    ("role", JStr role);
    ("exp", JInt (now + JWT_EXPIRY_HOURS * 3600)) ].

Definition create_token (E : env) (user_id : Z) (email role : string) : M string :=
  let token :=
    jwt_encode (token_payload (utcnow E) user_id email role)
               (JWT_SECRET config) JWT_ALGORITHM in
  modify (fun w => {| users := users w; users_seq := users_seq w;
                      activity_log := activity_log w;
                      activity_seq := activity_seq w;
                      upstream_calls := upstream_calls w;
                      issued := issued w ++ [token] |}) ;;;
  ret token.

(** The two [except] clauses are tried in order: the first one that the
    exception is an instance of handles it. *)
Definition decode_token (E : env) (token : string) : outcome dict :=
  match jwt_decode token (JWT_SECRET config) [JWT_ALGORITHM] (utcnow E) with
  | Decoded payload => Return payload
  | JwtRaise e =>
      if is_ExpiredSignatureError e then HTTPException 401 "Token expired"
      else if is_InvalidTokenError e then HTTPException 401 "Invalid token"
      else Uncaught TypeError
  end.

(** [credentials] is the token [HTTPBearer] took from the
    [Authorization] header. *)
Definition get_current_user (E : env) (credentials : string) : M dict :=
  lift (decode_token E credentials).

Definition require_role (allowed_roles : list string) (E : env)
    (credentials : string) : M dict :=
  user <- get_current_user E credentials ;;
  role <- lift (py_item (JObj user) "role") ;;
  if negb (in_strs role allowed_roles)
  then raise_http 403 "Insufficient permissions"
  else ret user.

(** ** Activity logging *)

Definition log_activity (E : env) (user_id : json) (action : string)
    (endpoint details ip : option string) : M unit :=
  uid <- lift (sql_bind user_id) ;;
  db_exec E InsertActivity ;;;
  modify (fun w =>
    let id := next_rowid (activity_seq w) (map a_id (activity_log w)) in
    {| users := users w; users_seq := users_seq w;
       activity_log := activity_log w ++
         [ {| a_id := id; a_user_id := uid; a_action := action;
              a_endpoint := endpoint; a_details := details;
              a_ip_address := ip; a_created_at := utcnow E |} ];
       activity_seq := id;
       upstream_calls := upstream_calls w;
       issued := issued w |}).

(** ** Real-estate provider client *)

Definition record_call (c : upstream_call) : M unit :=
  modify (fun w => {| users := users w; users_seq := users_seq w;
                      activity_log := activity_log w;
                      activity_seq := activity_seq w;
                      upstream_calls := upstream_calls w ++ [c];
                      issued := issued w |}).

(** [RealEstateAPI._post]: any exception of the call becomes a value. *)
Definition re_post (E : env) (endpoint : string) (payload : json) : M json :=
  record_call (RealEstateCall endpoint payload) ;;;
  match realestate_reply E endpoint payload with
  | HttpJson body => ret body
  | HttpFailed msg => ret (JObj [("error", JStr msg); ("data", JArr [])])
  end.

Definition re_autocomplete (E : env) (address : string) : M json :=
  re_post E "AutoComplete" (JObj [("search", JStr address)]).

Definition re_property_search (E : env) (filters : list json) (size : json) : M json :=
  re_post E "PropertySearch" (JObj [("search", JArr filters); ("size", size)]).

Definition re_skip_trace (E : env) (address_id : json) : M json :=
  re_post E "SkipTrace" (JObj [("address_id", address_id)]).

(** ** AI client *)

(** [if context:] on a string. *)
Definition openai_messages (prompt : string) (context : option string) : list json :=
  (match context with
   | Some c =>
       if negb (String.eqb c "")
       then [JObj [("role", JStr "system"); ("content", JStr c)]]
       else []
   | None => []
   end) ++ [JObj [("role", JStr "user"); ("content", JStr prompt)]].

Definition openai_payload (prompt : string) (context : option string) : json :=
  JObj [("model", JStr "gpt-4o");
        ("messages", JArr (openai_messages prompt context));
        ("max_tokens", JInt 1000)].

(** [data.get("choices", [{}])[0].get("message", {}).get("content", "No response")] *)
Definition openai_content (data : json) : outcome json :=
  match py_get data "choices" (JArr [JObj []]) with
  | Return choices =>
      match py_first choices with
      | Return choice =>
          match py_get choice "message" (JObj []) with
          | Return message => py_get message "content" (JStr "No response")
          | HTTPException s d => HTTPException s d
          | Uncaught e => Uncaught e
          end
      | HTTPException s d => HTTPException s d
      | Uncaught e => Uncaught e
      end
  | HTTPException s d => HTTPException s d
  | Uncaught e => Uncaught e
  end.

Definition query_openai (E : env) (prompt : string) (context : option string) : M json :=
  if String.eqb (OPENAI_API_KEY config) "" then ret (JStr "OpenAI not configured")
  else
    let payload := openai_payload prompt context in
    record_call (OpenAICall payload) ;;;
    match openai_reply E payload with
    | HttpJson data => lift (openai_content data)
    | HttpFailed _ => raise HttpxError
    end.

(** ** Request and response models *)

Record UserCreate : Type := {
  uc_email : string;
  uc_password : string;
  uc_name : string;
  uc_role : string
}.

Record UserLogin : Type := {
  ul_email : string;
  ul_password : string
}.

Record UserResponse : Type := {
  ur_id : Z;
  ur_email : string;
  ur_name : string;
  ur_role : string;
  ur_is_active : bool
}.

Record TokenResponse : Type := {
  access_token : string;
  token_type : string;
  user : UserResponse
}.

Record PropertySearchRequest : Type := {
  city : string;
  state : string;
  min_equity : option Z;
  absentee_only : option bool;
  min_year_built : option Z;
  max_results : option Z
}.

Record AddressLookupRequest : Type := { address : string }.

Record AIQueryRequest : Type := {
  query : string;
  context : option string;
  model : option string
}.

(** The values pydantic fills in for fields the body leaves out. *)
Definition UserCreate_default_role : string := "member".
Definition PropertySearchRequest_defaults (c s : string) : PropertySearchRequest :=
  {| city := c; state := s; min_equity := Some 40; absentee_only := Some false;
     min_year_built := None; max_results := Some 10 |}.
Definition AIQueryRequest_default_model : option string := Some "gpt-4o".

Definition opt_int (o : option Z) : json :=
  match o with Some z => JInt z | None => JNull end.
Definition opt_str (o : option string) : json :=
  match o with Some s => JStr s | None => JNull end.

(** ** Auth endpoints *)

Definition find_user_by_email (email : string) (w : world) : option user_row :=
  find (fun u => String.eqb (u_email u) email) (users w).

Definition insert_user (E : env) (email password_hash name role : string) : M Z :=
  db_exec E InsertUser ;;;
  id <- gets (fun w => next_rowid (users_seq w) (map u_id (users w))) ;;
  modify (fun w =>
    {| users := users w ++
         [ {| u_id := id; u_email := email; u_password_hash := password_hash;
              u_name := name; u_role := role; u_is_active := true;
              u_created_at := utcnow E; u_last_login := None |} ];
       users_seq := id;
       activity_log := activity_log w; activity_seq := activity_seq w;
       upstream_calls := upstream_calls w; issued := issued w |}) ;;;
  ret id.

Definition register (E : env) (user : UserCreate) (request : Request)
  : M TokenResponse :=
  db_exec E SelectUserByEmail ;;;
  existing <- gets (find_user_by_email (uc_email user)) ;;
  match existing with
  | Some _ => raise_http 400 "Email already registered"
  | None =>
      let password_hash := bcrypt_hash (salt E) (uc_password user) in
      user_id <- insert_user E (uc_email user) password_hash (uc_name user)
                             (uc_role user) ;;
      token <- create_token E user_id (uc_email user) (uc_role user) ;;
      ip <- lift (client_host request) ;;
      log_activity E (JInt user_id) "register" (Some "/api/v1/auth/register")
                   None (Some ip) ;;;
      ret {| access_token := token; token_type := "bearer";
             user := {| ur_id := user_id; ur_email := uc_email user;
                        ur_name := uc_name user; ur_role := uc_role user;
                        ur_is_active := true |} |}
  end.

(** [UPDATE users SET last_login = ? WHERE id = ?] *)
Definition touch_login (E : env) (id : Z) : M unit :=
  db_exec E UpdateLastLogin ;;;
  modify (fun w =>
    {| users := map (fun u =>
                  if u_id u =? id
                  then {| u_id := u_id u; u_email := u_email u;
                          u_password_hash := u_password_hash u;
                          u_name := u_name u; u_role := u_role u;
                          u_is_active := u_is_active u;
                          u_created_at := u_created_at u;
                          u_last_login := Some (utcnow E) |}
                  else u) (users w);
       users_seq := users_seq w;
       activity_log := activity_log w; activity_seq := activity_seq w;
       upstream_calls := upstream_calls w; issued := issued w |}).

(** [not user or not bcrypt.verify(password, user[2])] *)
Definition credentials_rejected (found : option user_row) (password : string)
  : outcome bool :=
  match found with
  | None => Return true
  | Some u =>
      match bcrypt_verify password (u_password_hash u) with
      | Some ok => Return (negb ok)
      | None => Uncaught ValueError
      end
  end.

Definition login (E : env) (credentials : UserLogin) (request : Request)
  : M TokenResponse :=
  db_exec E SelectUserByEmail ;;;
  found <- gets (find_user_by_email (ul_email credentials)) ;;
  rejected <- lift (credentials_rejected found (ul_password credentials)) ;;
  match found, rejected with
  | Some u, false =>
      if negb (u_is_active u) then raise_http 401 "Account disabled"
      else
        touch_login E (u_id u) ;;;
        token <- create_token E (u_id u) (u_email u) (u_role u) ;;
        ip <- lift (client_host request) ;;
        log_activity E (JInt (u_id u)) "login" (Some "/api/v1/auth/login")
                     None (Some ip) ;;;
        ret {| access_token := token; token_type := "bearer";
               user := {| ur_id := u_id u; ur_email := u_email u;
                          ur_name := u_name u; ur_role := u_role u;
                          ur_is_active := true |} |}
  | _, _ => raise_http 401 "Invalid credentials"
  end.

(** ** Property endpoints *)

Definition search_filter (field : string) (value : json) (operator : string) : json :=
  JObj [("field", JStr field); ("value", value); ("operator", JStr operator)].

(** [if req.min_equity:] on an optional integer: [None] and [0] are falsy. *)
Definition int_given (o : option Z) : bool :=
  match o with Some z => negb (z =? 0) | None => false end.

Definition flag_given (o : option bool) : bool :=
  match o with Some b => b | None => false end.

(** The filter list [search_properties] builds before it calls the
    provider. *)
Definition search_filters (req : PropertySearchRequest) : list json :=
  [ search_filter "city" (JStr (city req)) "=";
    search_filter "state" (JStr (state req)) "=" ]
  ++ (if int_given (min_equity req)
      then [search_filter "equity_percent" (opt_int (min_equity req)) "ge"] else [])
  ++ (if flag_given (absentee_only req)
      then [search_filter "absentee_owner" (JBool true) "="] else [])
  ++ (if int_given (min_year_built req)
      then [search_filter "year_built" (opt_int (min_year_built req)) "ge"] else []).

Definition search_properties (E : env) (req : PropertySearchRequest)
    (request : Request) (user : dict) : M json :=
  result <- re_property_search E (search_filters req) (opt_int (max_results req)) ;;
  user_id <- lift (py_item (JObj user) "user_id") ;;
  ip <- lift (client_host request) ;;
  log_activity E user_id "property_search" (Some "/api/v1/properties/search")
               (Some (city req ++ ", " ++ state req)%string) (Some ip) ;;;
  ret result.

Definition search_properties_route (E : env) (credentials : string)
    (req : PropertySearchRequest) (request : Request) : M json :=
  user <- get_current_user E credentials ;;
  search_properties E req request user.

(** ** Skip trace *)

Definition skip_trace (E : env) (req : AddressLookupRequest) (request : Request)
    (user : dict) : M json :=
  autocomplete <- re_autocomplete E (address req) ;;
  data <- lift (py_get autocomplete "data" JNull) ;;
  if negb (truthy data) then raise_http 404 "Address not found"
  else
    data' <- lift (py_item autocomplete "data") ;;
    first <- lift (py_first data') ;;
    address_id <- lift (py_get first "address_id" JNull) ;;
    result <- re_skip_trace E address_id ;;
    user_id <- lift (py_item (JObj user) "user_id") ;;
    ip <- lift (client_host request) ;;
    log_activity E user_id "skip_trace" (Some "/api/v1/skip-trace")
                 (Some (address req)) (Some ip) ;;;
    ret result.

Definition skip_trace_roles : list string := ["admin"; "manager"; "acquisitions"].

Definition skip_trace_route (E : env) (credentials : string)
    (req : AddressLookupRequest) (request : Request) : M json :=
  user <- require_role skip_trace_roles E credentials ;;
  skip_trace E req request user.

(** ** AI assistant *)

Definition default_context : string :=
  ("You are the REI Nationwide AI Assistant. "
   ++ String (ascii_of_nat 10)
        "    Help the team with real estate investment questions, deal analysis, and strategy.")%string.

(** [req.context or default] *)
Definition context_or_default (c : option string) : string :=
  match c with
  | Some s => if String.eqb s "" then default_context else s
  | None => default_context
  end.

Definition ai_query (E : env) (req : AIQueryRequest) (request : Request)
    (user : dict) : M json :=
  let context := context_or_default (context req) in
  response <- query_openai E (query req) (Some context) ;;
  user_id <- lift (py_item (JObj user) "user_id") ;;
  ip <- lift (client_host request) ;;
  log_activity E user_id "ai_query" (Some "/api/v1/ai/query")
               (Some (str_prefix 100 (query req))) (Some ip) ;;;
  ret (JObj [("response", response); ("model", opt_str (model req))]).

Definition ai_query_route (E : env) (credentials : string)
    (req : AIQueryRequest) (request : Request) : M json :=
  user <- get_current_user E credentials ;;
  ai_query E req request user.

(** ** Admin endpoints *)

Definition list_users (E : env) (user : dict) : M (list user_row) :=
  db_exec E SelectUsers ;;;
  gets users.

Definition list_users_route (E : env) (credentials : string) : M (list user_row) :=
  user <- require_role ["admin"] E credentials ;;
  list_users E user.

(** A row of the activity listing: the log row with the actor's name and
    email joined in. *)
Record activity_view : Type := {
  av_id : Z;
  av_user_name : option string;
  av_user_email : option string;
  av_action : string;
  av_endpoint : option string;
  av_details : option string;
  av_ip : option string;
  av_timestamp : Z
}.

(** [LEFT JOIN users u ON a.user_id = u.id]: [users.id] is the primary
    key, so at most one row matches; without a match the columns of [u]
    are NULL. *)
Definition actor_of (us : list user_row) (a : activity_row) : option user_row :=
  match a_user_id a with
  | SqlInt id => find (fun u => u_id u =? id) us
  | _ => None
  end.

Definition join_actor (us : list user_row) (a : activity_row) : activity_view :=
  {| av_id := a_id a;
     av_user_name := option_map u_name (actor_of us a);
     av_user_email := option_map u_email (actor_of us a);
     av_action := a_action a;
     av_endpoint := a_endpoint a;
     av_details := a_details a;
     av_ip := a_ip_address a;
     av_timestamp := a_created_at a |}.

(** [ORDER BY a.created_at DESC] over the table in rowid order.  SQL
    leaves the order of rows with equal [created_at] open; SQLite's
    sorter keeps them in the order of the scan, and so does this
    insertion. *)
Fixpoint insert_desc (a : activity_row) (l : list activity_row) : list activity_row :=
  match l with
  | [] => [a]
  | b :: l' =>
      if a_created_at a <? a_created_at b then b :: insert_desc a l'
      else a :: b :: l'
  end.

Definition order_by_created_at_desc (l : list activity_row) : list activity_row :=
  fold_right insert_desc [] l.

(** [LIMIT n]: a negative [n] puts no bound on the rows returned. *)
Definition sql_limit {A} (n : Z) (l : list A) : list A :=
  if n <? 0 then l else firstn (Z.to_nat n) l.

Definition select_activity (limit : Z) (w : world) : list activity_view :=
  map (join_actor (users w))
      (sql_limit limit (order_by_created_at_desc (activity_log w))).

Definition get_activity (E : env) (limit : Z) (user : dict) : M (list activity_view) :=
  lift (sql_bind (JInt limit)) ;;;
  db_exec E SelectActivity ;;;
  gets (select_activity limit).

Definition get_activity_default_limit : Z := 100.

Definition get_activity_route (E : env) (credentials : string) (limit : Z)
  : M (list activity_view) :=
  user <- require_role ["admin"; "manager"] E credentials ;;
  get_activity E limit user.

(** ** Vocabulary of the properties *)

(** What makes the guard of a role-gated operation turn a request away:
    the token does not validate, or it does and the role it carries is
    not one of the allowed ones. *)
Definition turned_away (allowed_roles : list string) (E : env)
    (credentials : string) : Prop :=
  succeeded (decode_token E credentials) = false
  \/ exists user role,
       decode_token E credentials = Return user
       /\ dict_get "role" user = Some role
       /\ in_strs role allowed_roles = false.

(** The codec reads back the token it wrote for [payload] under [key]. *)
Definition jwt_reads_back (payload : dict) (key : string) : Prop :=
  jws_parse (jwt_encode payload key JWT_ALGORITHM)
  = Some {| jws_alg := JWT_ALGORITHM;
            jws_input := jws_signing_input JWT_ALGORITHM payload;
            jws_signature :=
              hmac_sha256 key (jws_signing_input JWT_ALGORITHM payload);
            jws_payload := payload |}.

(** The claim that the last-login update is best effort: a login that
    returns a token still returns one when that update fails. *)
Definition touch_login_is_best_effort : Prop :=
  forall E credentials request w,
    succeeded (fst (login E credentials request w)) = true ->
    succeeded (fst (login (with_fault UpdateLastLogin E) credentials request w))
      = true.

(** The claim that a failed audit write is swallowed: the status of a
    property search is the same whether or not the write fails. *)
Definition audit_failure_is_swallowed : Prop :=
  forall E credentials req request w,
    http_status (fst (search_properties_route
                        (with_fault InsertActivity E) credentials req request w))
    = http_status (fst (search_properties_route E credentials req request w)).

End Server.

(** The observable part of "rejected before any side effect". *)
Definition rejected_untouched {A} (run : outcome A * world) (w : world) : Prop :=
  (http_status (fst run) = 401 \/ http_status (fst run) = 403)
  /\ activity_log (snd run) = activity_log w
  /\ upstream_calls (snd run) = upstream_calls w
  /\ snd run = w.

(** [keeps proj m]: running [m] does not change the component [proj] of
    the world, however [m] ends. *)
Definition keeps {A X} (proj : world -> X) (m : M A) : Prop :=
  forall w, proj (snd (m w)) = proj w.

(** The order of the activity listing: no row is older than one listed
    after it. *)
Definition newer_or_same (a b : activity_view) : Prop :=
  av_timestamp b <= av_timestamp a.

Definition newer_or_same_row (a b : activity_row) : Prop :=
  a_created_at b <= a_created_at a.

(** The claim about the activity listing as the specification words it:
    at most [limit] rows for every [limit], and after three insertions a
    listing with limit 2 is the last row inserted, then the one before. *)
Definition listing_newest_first : Prop :=
  forall (w : world) (limit : Z),
    Z.of_nat (List.length (select_activity limit w)) <= limit
    /\ (forall older r1 r2 r3,
          activity_log w = older ++ [r1; r2; r3] ->
          select_activity 2 w
          = [join_actor (users w) r3; join_actor (users w) r2]).

(** [never_returns m]: whatever the world, [m] ends in an exception. *)
Definition never_returns {A} (m : M A) : Prop :=
  forall w, succeeded (fst (m w)) = false.

(** Record updates used to compare two requests that differ in one field. *)
Definition with_min_equity (o : option Z) (req : PropertySearchRequest)
  : PropertySearchRequest :=
  {| city := city req; state := state req; min_equity := o;
     absentee_only := absentee_only req; min_year_built := min_year_built req;
     max_results := max_results req |}.

Definition with_min_year_built (o : option Z) (req : PropertySearchRequest)
  : PropertySearchRequest :=
  {| city := city req; state := state req; min_equity := min_equity req;
     absentee_only := absentee_only req; min_year_built := o;
     max_results := max_results req |}.

(** Does a filter list hold a filter on [field]? *)
Definition filters_on (field : string) (filters : list json) : bool :=
  existsb (fun f => match f with
                    | JObj o => match dict_get "field" o with
                                | Some (JStr s) => String.eqb s field
                                | _ => false
                                end
                    | _ => false
                    end) filters.

(** The model named in a payload sent to the AI provider. *)
Definition payload_model (c : upstream_call) : option json :=
  match c with
  | OpenAICall (JObj o) => dict_get "model" o
  | _ => None
  end.

(** ** Handlers beyond the audited core *)

Section MoreHandlers.

Context {L : Libraries}.
Variable config : Config.

(** SQLite compares a TEXT value with the INTEGER column [users.id]
    after reading the text as a number: [sqlite_integer s] is the integer
    the text [s] reads as, when it reads as one.  Taken as given. *)
Variable sqlite_integer : string -> option Z.

(** [SELECT ... FROM users WHERE id = ?]: [id] is the primary key, so
    the first match is the only one; NULL equals nothing. *)
Definition select_user_by_id (v : sqlval) (w : world) : option user_row :=
  match v with
  | SqlInt id => find (fun u => u_id u =? id) (users w)
  | SqlText s =>
      match sqlite_integer s with
      | Some id => find (fun u => u_id u =? id) (users w)
      | None => None
      end
  | SqlNull => None
  end.

Definition get_me (E : env) (user : dict) : M UserResponse :=
  user_id <- lift (py_item (JObj user) "user_id") ;;
  v <- lift (sql_bind user_id) ;;
  db_exec E SelectUserById ;;;
  row <- gets (select_user_by_id v) ;;
  match row with
  | None => raise_http 404 "User not found"
  | Some r =>
      ret {| ur_id := u_id r; ur_email := u_email r; ur_name := u_name r;
             ur_role := u_role r; ur_is_active := u_is_active r |}
  end.

Definition get_me_route (E : env) (credentials : string) : M UserResponse :=
  user <- get_current_user config E credentials ;;
  get_me E user.

Definition re_property_detail (E : env) (address_id : json) : M json :=
  re_post E "PropertyDetail" (JObj [("address_id", address_id)]).

Definition lookup_property (E : env) (req : AddressLookupRequest)
    (request : Request) (user : dict) : M json :=
  autocomplete <- re_autocomplete E (address req) ;;
  data <- lift (py_get autocomplete "data" JNull) ;;
  if negb (truthy data) then raise_http 404 "Address not found"
  else
    data' <- lift (py_item autocomplete "data") ;;
    first <- lift (py_first data') ;;
    address_id <- lift (py_get first "address_id" JNull) ;;
    detail <- re_property_detail E address_id ;;
    user_id <- lift (py_item (JObj user) "user_id") ;;
    ip <- lift (client_host request) ;;
    log_activity E user_id "property_lookup" (Some "/api/v1/properties/lookup")
                 (Some (address req)) (Some ip) ;;;
    ret (JObj [("autocomplete", autocomplete); ("detail", detail)]).

Definition lookup_property_route (E : env) (credentials : string)
    (req : AddressLookupRequest) (request : Request) : M json :=
  user <- get_current_user config E credentials ;;
  lookup_property E req request user.

(** The claim that a failed login does not tell a registered email from
    an unknown one: an attempt with an email nobody registered and an
    attempt with a registered email and a password that is not the
    account's end the same way. *)
Definition login_is_not_enumerable : Prop :=
  forall (E1 E2 : env) (c1 c2 : UserLogin) (request1 request2 : Request)
         (w1 w2 : world) (u : user_row),
    find_user_by_email (ul_email c1) w1 = None ->
    find_user_by_email (ul_email c2) w2 = Some u ->
    bcrypt_verify (ul_password c2) (u_password_hash u) <> Some true ->
    db_fault E1 SelectUserByEmail = false ->
    db_fault E2 SelectUserByEmail = false ->
    fst (login config E1 c1 request1 w1) = fst (login config E2 c2 request2 w2).

(** *** The steps of [register] and [login] *)

(** The row [register] inserts. *)
Definition registered_row (E : env) (user : UserCreate) (w : world) : user_row :=
  {| u_id := next_rowid (users_seq w) (map u_id (users w));
     u_email := uc_email user;
     u_password_hash := bcrypt_hash (salt E) (uc_password user);
     u_name := uc_name user; u_role := uc_role user; u_is_active := true;
     u_created_at := utcnow E; u_last_login := None |}.

(** The world once [register] has committed its row. *)
Definition with_registered (E : env) (user : UserCreate) (w : world) : world :=
  {| users := users w ++ [registered_row E user w];
     users_seq := next_rowid (users_seq w) (map u_id (users w));
     activity_log := activity_log w; activity_seq := activity_seq w;
     upstream_calls := upstream_calls w; issued := issued w |}.

(** What [register] still does after the row is committed. *)
Definition register_rest (E : env) (user : UserCreate) (request : Request)
    (user_id : Z) : M TokenResponse :=
  token <- create_token config E user_id (uc_email user) (uc_role user) ;;
  ip <- lift (client_host request) ;;
  log_activity E (JInt user_id) "register" (Some "/api/v1/auth/register")
               None (Some ip) ;;;
  ret {| access_token := token; token_type := "bearer";
         user := {| ur_id := user_id; ur_email := uc_email user;
                    ur_name := uc_name user; ur_role := uc_role user;
                    ur_is_active := true |} |}.

(** The row of a user after a login at clock [now]. *)
Definition stamped (now : Z) (u : user_row) : user_row :=
  {| u_id := u_id u; u_email := u_email u;
     u_password_hash := u_password_hash u; u_name := u_name u;
     u_role := u_role u; u_is_active := u_is_active u;
     u_created_at := u_created_at u; u_last_login := Some now |}.

End MoreHandlers.

(** ** The two handlers that need more of Python *)

(** What [get_comps] and [search_buyers] take from Python beyond the
    values modelled here, taken as given: the JSON number 0.5 (a [json]
    number is an integer), [str(x)] of a list, and the date a year before
    the clock, as [(datetime.now() - timedelta(days=365))] prints under
    ["%Y-%m-%d"]. *)
Class Python : Type := {
  half : json;
  str_of_list : list json -> string;
  date_a_year_before : Z -> string
}.

Record BuyerSearchRequest : Type := {
  bs_city : string;
  bs_state : string;
  bs_min_purchases : option Z;
  bs_max_results : option Z
}.

Definition BuyerSearchRequest_defaults (c s : string) : BuyerSearchRequest :=
  {| bs_city := c; bs_state := s; bs_min_purchases := Some 2;
     bs_max_results := Some 20 |}.

(** An entry of [buyer_counts], with its key. *)
Record buyer : Type := {
  b_name : json;
  b_count : Z;
  b_properties : list json
}.

Section Comps_and_Buyers.

Context {P : Python}.

Definition re_property_comps (E : env) (address_id : json) : M json :=
  re_post E "PropertyComps"
    (JObj [("address_id", address_id); ("radius", half); ("size", JInt 5)]).

Definition get_comps (E : env) (req : AddressLookupRequest) (request : Request)
    (user : dict) : M json :=
  autocomplete <- re_autocomplete E (address req) ;;
  data <- lift (py_get autocomplete "data" JNull) ;;
  if negb (truthy data) then raise_http 404 "Address not found"
  else
    data' <- lift (py_item autocomplete "data") ;;
    first <- lift (py_first data') ;;
    address_id <- lift (py_get first "address_id" JNull) ;;
    comps <- re_property_comps E address_id ;;
    user_id <- lift (py_item (JObj user) "user_id") ;;
    ip <- lift (client_host request) ;;
    log_activity E user_id "get_comps" (Some "/api/v1/properties/comps")
                 (Some (address req)) (Some ip) ;;;
    ret comps.

(** [str(owner)] for an owner that is not a dict. *)
Definition py_str (x : json) : string :=
  match x with
  | JNull => "None"
  | JBool true => "True"
  | JBool false => "False"
  | JInt z => NilZero.string_of_int (Z.to_int z)
  | JStr s => s
  | JArr l => str_of_list l
  | JObj _ => ""
  end.

(** [owner.get("name", "") if isinstance(owner, dict) else str(owner)],
    for [owner = prop.get("owner", {})]. *)
Definition owner_name (prop : json) : outcome json :=
  match py_get prop "owner" (JObj []) with
  | Return (JObj o) =>
      Return (match dict_get "name" o with Some n => n | None => JStr "" end)
  | Return owner => Return (JStr (py_str owner))
  | HTTPException s d => HTTPException s d
  | Uncaught e => Uncaught e
  end.

(** A list or a dict cannot be a key of a dict. *)
Definition hashable (k : json) : bool :=
  match k with JArr _ | JObj _ => false | _ => true end.

(** Two keys are the same key: equal values, [True] being [1] and
    [False] being [0]. *)
Definition same_key (a b : json) : bool :=
  match a, b with
  | JNull, JNull => true
  | JStr x, JStr y => String.eqb x y
  | JInt x, JInt y => x =? y
  | JBool x, JBool y => Bool.eqb x y
  | JBool x, JInt y | JInt y, JBool x => y =? (if x then 1 else 0)
  | _, _ => false
  end.

(** One more property for [name]: a new entry at the end, or the entry
    of that key counted up. *)
Fixpoint count_in (name prop : json) (counts : list buyer) : list buyer :=
  match counts with
  | [] => [ {| b_name := name; b_count := 1; b_properties := [prop] |} ]
  | b :: counts' =>
      if same_key (b_name b) name
      then {| b_name := b_name b; b_count := b_count b + 1;
              b_properties := b_properties b ++ [prop] |} :: counts'
      else b :: count_in name prop counts'
  end.

(** The body of the loop. *)
Definition count_owner (counts : list buyer) (prop : json) : outcome (list buyer) :=
  match owner_name prop with
  | Return name =>
      if truthy name
      then (if hashable name then Return (count_in name prop counts)
            else Uncaught TypeError)
      else Return counts
  | HTTPException s d => HTTPException s d
  | Uncaught e => Uncaught e
  end.

Fixpoint count_owners (counts : list buyer) (props : list json)
  : outcome (list buyer) :=
  match props with
  | [] => Return counts
  | prop :: props' =>
      match count_owner counts prop with
      | Return counts' => count_owners counts' props'
      | HTTPException s d => HTTPException s d
      | Uncaught e => Uncaught e
      end
  end.

(** What [for prop in data] goes through: the items of a list; a dict or
    a str that is not empty gives a str first (a key, a character), and
    [prop.get] raises on it; nothing else can be iterated. *)
Definition props_of (data : json) : outcome (list json) :=
  match data with
  | JArr l => Return l
  | JObj [] => Return []
  | JObj _ => Uncaught AttributeError
  | JStr EmptyString => Return []
  | JStr _ => Uncaught AttributeError
  | _ => Uncaught TypeError
  end.

(** [if data["count"] >= req.min_purchases], entry by entry: comparing
    with [None] raises. *)
Fixpoint portfolio (min_purchases : option Z) (counts : list buyer)
  : outcome (list buyer) :=
  match counts with
  | [] => Return []
  | b :: counts' =>
      match min_purchases with
      | None => Uncaught TypeError
      | Some n =>
          match portfolio min_purchases counts' with
          | Return chosen =>
              Return (if n <=? b_count b then b :: chosen else chosen)
          | HTTPException s d => HTTPException s d
          | Uncaught e => Uncaught e
          end
      end
  end.

(** [sort(key=purchase_count, reverse=True)]: the sort is stable, buyers
    with the same count keep their order. *)
Fixpoint insert_buyer (b : buyer) (l : list buyer) : list buyer :=
  match l with
  | [] => [b]
  | b' :: l' =>
      if b_count b <? b_count b' then b' :: insert_buyer b l'
      else b :: b' :: l'
  end.

Definition sort_buyers (l : list buyer) : list buyer :=
  fold_right insert_buyer [] l.

(** [l[:n]] *)
Definition slice_to {A} (n : option Z) (l : list A) : list A :=
  match n with
  | None => l
  | Some n =>
      if n <? 0 then firstn (List.length l - Z.to_nat (- n)) l
      else firstn (Z.to_nat n) l
  end.

Definition buyer_json (b : buyer) : json :=
  JObj [("name", b_name b); ("purchase_count", JInt (b_count b));
        ("recent_properties", JArr (firstn 3 (b_properties b)))].

Definition buyers_filters (E : env) (req : BuyerSearchRequest) : list json :=
  [ search_filter "city" (JStr (bs_city req)) "=";
    search_filter "state" (JStr (bs_state req)) "=";
    search_filter "last_sale_date" (JStr (date_a_year_before (utcnow E))) "ge" ].

Definition search_buyers (E : env) (req : BuyerSearchRequest) (request : Request)
    (user : dict) : M json :=
  result <- re_property_search E (buyers_filters E req)
                               (opt_int (bs_max_results req)) ;;
  data <- lift (py_get result "data" (JArr [])) ;;
  props <- lift (props_of data) ;;
  counts <- lift (count_owners [] props) ;;
  chosen <- lift (portfolio (bs_min_purchases req) counts) ;;
  let portfolio_buyers := sort_buyers chosen in
  user_id <- lift (py_item (JObj user) "user_id") ;;
  ip <- lift (client_host request) ;;
  log_activity E user_id "buyer_search" (Some "/api/v1/buyers/search")
               (Some (bs_city req ++ ", " ++ bs_state req)%string) (Some ip) ;;;
  ret (JObj [("buyers",
             JArr (map buyer_json
                       (slice_to (bs_max_results req) portfolio_buyers)))]).

End Comps_and_Buyers.

(** [m'] is [m] with the audit write failing: wherever [m] returns, [m']
    ends in the unhandled storage error, which is status 500. *)
Definition ends_in_500_where_returns {A} (m m' : M A) : Prop :=
  forall w,
    succeeded (fst (m w)) = true ->
    fst (m' w) = Uncaught SqliteError /\ http_status (fst (m' w)) = 500.

(** *** Vocabulary for the further properties *)

(** The [users] table holds each email and each id once. *)
Definition users_wf (w : world) : Prop :=
  NoDup (map u_email (users w)) /\ NoDup (map u_id (users w)).

(** The ids of the activity log grow along the table. *)
Definition log_ids_increasing (w : world) : Prop :=
  StronglySorted Z.lt (map a_id (activity_log w)).

(** The row [log_activity] writes at clock [utcnow E] into [w]. *)
Definition logged_by (E : env) (w : world) (row : activity_row) : Prop :=
  a_id row = next_rowid (activity_seq w) (map a_id (activity_log w))
  /\ a_created_at row = utcnow E.

(** [m] writes one activity row exactly when it returns, and none when
    it raises. *)
Definition logs_iff_returns {A} (E : env) (m : M A) : Prop :=
  forall w,
    if succeeded (fst (m w))
    then exists row, activity_log (snd (m w)) = activity_log w ++ [row]
                     /\ logged_by E w row
    else activity_log (snd (m w)) = activity_log w.

(** The provider has no candidate for an address: the call failed, or
    the reply is an object whose [data] is missing or falsy. *)
Definition no_candidate (E : env) (address : string) : Prop :=
  (exists msg,
     realestate_reply E "AutoComplete" (JObj [("search", JStr address)])
     = HttpFailed msg)
  \/ (exists o,
        realestate_reply E "AutoComplete" (JObj [("search", JStr address)])
        = HttpJson (JObj o)
        /\ truthy (match dict_get "data" o with Some v => v | None => JNull end)
           = false).

(** [w] with one more call to the real-estate provider on record. *)
Definition after_call (endpoint : string) (payload : json) (w : world) : world :=
  {| users := users w; users_seq := users_seq w;
     activity_log := activity_log w; activity_seq := activity_seq w;
     upstream_calls := upstream_calls w ++ [RealEstateCall endpoint payload];
     issued := issued w |}.

(** ** The Slack bot: [parse_location] of [src/slack_bot/bot.py]

    Strings are sequences of bytes here; on ASCII text the functions
    below are Python's [str.split], [str.join], [in], [str.strip] and
    [str.upper]. *)

(** [c.isspace()] below 128: tab to carriage return, the four separators
    28 to 31, and the space. *)
Definition is_space (c : ascii) : bool :=
  let n := nat_of_ascii c in
  ((9 <=? n)%nat && (n <=? 13)%nat) || ((28 <=? n)%nat && (n <=? 32)%nat).

Definition is_empty (s : string) : bool :=
  match s with EmptyString => true | _ => false end.

(** [acc] is the word being read. *)
Fixpoint words_from (acc : string) (s : string) : list string :=
  match s with
  | EmptyString => if is_empty acc then [] else [acc]
  | String c s' =>
      if is_space c
      then (if is_empty acc then words_from EmptyString s'
            else acc :: words_from EmptyString s')
      else words_from (acc ++ String c EmptyString)%string s'
  end.

(** [s.split()] *)
Definition py_split (s : string) : list string := words_from EmptyString s.

(** [sep.join(parts)] *)
Definition py_join (sep : string) (parts : list string) : string :=
  String.concat sep parts.

(** [c in s] for a one-character [c]. *)
Fixpoint has_char (c : ascii) (s : string) : bool :=
  match s with
  | EmptyString => false
  | String c' s' => Ascii.eqb c' c || has_char c s'
  end.

Fixpoint fields_from (sep : ascii) (acc : string) (s : string) : list string :=
  match s with
  | EmptyString => [acc]
  | String c s' =>
      if Ascii.eqb c sep then acc :: fields_from sep EmptyString s'
      else fields_from sep (acc ++ String c EmptyString)%string s'
  end.

(** [s.split(sep)] for a one-character [sep]. *)
Definition py_split_on (sep : ascii) (s : string) : list string :=
  fields_from sep EmptyString s.

Fixpoint lstrip (s : string) : string :=
  match s with
  | EmptyString => EmptyString
  | String c s' => if is_space c then lstrip s' else s
  end.

Fixpoint rstrip (s : string) : string :=
  match s with
  | EmptyString => EmptyString
  | String c s' =>
      let r := rstrip s' in
      if is_space c && is_empty r then EmptyString else String c r
  end.

(** [s.strip()] *)
Definition py_strip (s : string) : string := rstrip (lstrip s).

Definition upper_char (c : ascii) : ascii :=
  let n := nat_of_ascii c in
  if (97 <=? n)%nat && (n <=? 122)%nat then ascii_of_nat (n - 32) else c.

(** [s.upper()] *)
Fixpoint py_upper (s : string) : string :=
  match s with
  | EmptyString => EmptyString
  | String c s' => String (upper_char c) (py_upper s')
  end.

Definition comma : ascii := ascii_of_nat 44.

(** [parts[-1]] and [parts[:-1]] of a list that is not empty. *)
Definition last_word (parts : list string) : string := last parts EmptyString.
Definition but_last (parts : list string) : list string := removelast parts.

Definition parse_location (text : string) : string * string :=
  let text := py_join " " (py_split text) in
  let by_words :=
    let parts := py_split text in
    if (2 <=? List.length parts)%nat
    then (py_join " " (but_last parts), py_upper (last_word parts))
    else (text, "TX") in
  if has_char comma text
  then
    let parts := map py_strip (py_split_on comma text) in
    match parts with
    | first :: second :: _ => (first, second)
    | _ => by_words
    end
  else by_words.

(** Text of characters below 128 only: on such text a byte is a
    character, and the functions above are Python's. *)
Fixpoint is_ascii (s : string) : bool :=
  match s with
  | EmptyString => true
  | String c s' => (nat_of_ascii c <? 128)%nat && is_ascii s'
  end.

(** A word: not empty, no whitespace in it. *)
Definition is_word (s : string) : Prop :=
  s <> EmptyString /\ forall c, has_char c s = true -> is_space c = false.

(** ** A small instance of the libraries, to run the model

    A codec that writes a payload as text and reads back the tokens of a
    fixed code book, a MAC that pairs key and message, and a password
    hash that keeps the password behind its salt.  None of this is
    cryptography; it gives the handlers something to compute with. *)
Module Sample.

Definition show_Z (z : Z) : string := NilZero.string_of_int (Z.to_int z).

Definition show_value (v : json) : string :=
  match v with
  | JInt z => show_Z z
  | JStr s => s
  | JBool true => "true"
  | JBool false => "false"
  | _ => "null"
  end.

Fixpoint show_payload (d : dict) : string :=
  match d with
  | [] => ""
  | (k, v) :: d' => (k ++ "=" ++ show_value v ++ ";" ++ show_payload d')%string
  end.

Definition mac (key msg : string) : string :=
  ("mac(" ++ key ++ "," ++ msg ++ ")")%string.

Definition signing_input (alg : string) (payload : dict) : string :=
  (alg ++ "." ++ show_payload payload)%string.

Definition compact (input signature : string) : string :=
  (input ++ "." ++ signature)%string.

Definition signed (alg key : string) (payload : dict) : jws :=
  {| jws_alg := alg; jws_input := signing_input alg payload;
     jws_signature := mac key (signing_input alg payload);
     jws_payload := payload |}.

Definition secret : string := "rei-nationwide-secret-change-in-production".

Definition claims (user_id : Z) (role : string) (exp : json) : dict :=
  [("user_id", JInt user_id); ("email", JStr "alice@example.com");
   ("role", JStr role); ("exp", exp)].

(** The tokens this codec can read back. *)
Definition code_book : list jws :=
  [ signed "HS256" secret (claims 1 "member" (JInt 86500));
    signed "HS256" secret (claims 1 "member" (JInt 86700));
    signed "HS256" secret (claims 1 "member" (JInt 100));
    signed "HS256" secret (claims 2 "admin" (JInt 86500));
    signed "HS256" "guess" (claims 2 "admin" (JInt 100));
    signed "none" secret (claims 2 "admin" (JInt 86500));
    signed "HS256" secret (claims 2 "admin" (JStr "never")) ].

Definition parse (token : string) : option jws :=
  find (fun t => String.eqb (compact (jws_input t) (jws_signature t)) token)
       code_book.

Definition hash (salt password : string) : string :=
  ("$2b$" ++ salt ++ "$" ++ password)%string.

Definition verify (password stored : string) : option bool :=
  if String.prefix "$2b$" stored
  then Some (String.eqb
               (substring (String.length stored - String.length password - 1)
                          (String.length password + 1) stored)
               ("$" ++ password)%string)
  else None.

#[local] Instance libraries : Libraries := {|
  hmac_sha256 := mac;
  jws_signing_input := signing_input;
  jws_compact := compact;
  jws_parse := parse;
  bcrypt_hash := hash;
  bcrypt_verify := verify
|}.

Definition config : Config :=
  {| JWT_SECRET := secret; OPENAI_API_KEY := "sk-test" |}.

(** A request environment at clock [now] in which nothing fails, the
    real-estate provider knows one address and the AI provider answers
    every prompt the same way. *)
Definition calm (now : Z) : env :=
  {| utcnow := now;
     db_fault := fun _ => false;
     realestate_reply := fun endpoint _ =>
       if String.eqb endpoint "AutoComplete"
       then HttpJson (JObj [("data", JArr [JObj [("address_id", JStr "A-17")]])])
       else HttpJson (JObj [("data", JArr [JObj [("owner", JStr "J. Doe")]])]);
     openai_reply := fun _ =>
       HttpJson (JObj [("choices",
         JArr [JObj [("message", JObj [("content", JStr "Buy low.")])]])]);
     salt := "s4lt" |}.

(** The same environment with one statement failing. *)
Definition failing (st : db_stmt) (now : Z) : env := with_fault st (calm now).

Definition empty_world : world :=
  {| users := []; users_seq := 0; activity_log := []; activity_seq := 0;
     upstream_calls := []; issued := [] |}.

Definition peer : Request := {| client := Some "10.0.0.7" |}.

Definition alice : UserCreate :=
  {| uc_email := "alice@example.com"; uc_password := "correct horse";
     uc_name := "Alice"; uc_role := "member" |}.

Definition alice_login : UserLogin :=
  {| ul_email := "alice@example.com"; ul_password := "correct horse" |}.

Definition bob_login : UserLogin :=
  {| ul_email := "bob@example.com"; ul_password := "correct horse" |}.
Definition alice_wrong_password : UserLogin :=
  {| ul_email := "alice@example.com"; ul_password := "battery staple" |}.

Definition austin : PropertySearchRequest :=
  PropertySearchRequest_defaults "Austin" "TX".

Definition ask : AIQueryRequest :=
  {| query := "What is a good cap rate?"; context := None;
     model := Some "gpt-3.5-turbo" |}.

(** The world after Alice registered at clock 100. *)
Definition world_with_alice : world :=
  snd (register config (calm 100) alice peer empty_world).

(** The same world after an administrator switched her account off. *)
Definition world_alice_disabled : world :=
  {| users := map (fun u =>
                {| u_id := u_id u; u_email := u_email u;
                   u_password_hash := u_password_hash u; u_name := u_name u;
                   u_role := u_role u; u_is_active := false;
                   u_created_at := u_created_at u;
                   u_last_login := u_last_login u |}) (users world_with_alice);
     users_seq := users_seq world_with_alice;
     activity_log := activity_log world_with_alice;
     activity_seq := activity_seq world_with_alice;
     upstream_calls := upstream_calls world_with_alice;
     issued := issued world_with_alice |}.

(** Three operations logged within one second of the clock, by a user
    id that no row of [users] carries. *)
Definition busy_second : world :=
  let log action w :=
    snd (log_activity (calm 500) (JInt 9) action None None (Some "10.0.0.7") w) in
  log "third" (log "second" (log "first" empty_world)).

(** The same three operations, one second apart. *)
Definition three_seconds : world :=
  let log now action w :=
    snd (log_activity (calm now) (JInt 9) action None None (Some "10.0.0.7") w) in
  log 502 "third" (log 501 "second" (log 500 "first" empty_world)).

Definition token_of (t : jws) : string :=
  compact (jws_input t) (jws_signature t).

Definition member_token : string :=
  token_of (signed "HS256" secret (claims 1 "member" (JInt 86500))).
Definition admin_token : string :=
  token_of (signed "HS256" secret (claims 2 "admin" (JInt 86500))).
Definition stale_token : string :=
  token_of (signed "HS256" secret (claims 1 "member" (JInt 100))).
Definition forged_token : string :=
  token_of (signed "HS256" "guess" (claims 2 "admin" (JInt 100))).

End Sample.

(** More of the same, for the further properties. *)
Module Cases.

Import Sample.
#[local] Existing Instance libraries.

(** A server whose secret was changed, and one without an AI key. *)
Definition config_rotated : Config :=
  {| JWT_SECRET := "guess"; OPENAI_API_KEY := "sk-test" |}.

(** Both providers unreachable. *)
Definition offline (now : Z) : env :=
  {| utcnow := now; db_fault := fun _ => false;
     realestate_reply := fun _ _ => HttpFailed "timed out";
     openai_reply := fun _ => HttpFailed "timed out";
     salt := "s4lt" |}.

(** AutoComplete answers, every other call of the real-estate provider
    fails. *)
Definition flaky (now : Z) : env :=
  {| utcnow := now; db_fault := fun _ => false;
     realestate_reply := fun endpoint payload =>
       if String.eqb endpoint "AutoComplete"
       then realestate_reply (calm now) endpoint payload
       else HttpFailed "502 Bad Gateway";
     openai_reply := openai_reply (calm now);
     salt := "s4lt" |}.

(** The AI provider answers with an object of another shape. *)
Definition ai_says (body : json) (now : Z) : env :=
  {| utcnow := now; db_fault := fun _ => false;
     realestate_reply := realestate_reply (calm now);
     openai_reply := fun _ => HttpJson body;
     salt := "s4lt" |}.

(** The same libraries with a password check that, like passlib's,
    raises on a password holding a NUL character. *)
Definition strict : Libraries :=
  {| hmac_sha256 := mac;
     jws_signing_input := signing_input;
     jws_compact := compact;
     jws_parse := parse;
     bcrypt_hash := hash;
     bcrypt_verify := fun password stored =>
       if has_char Ascii.zero password then None else verify password stored |}.

Definition nul_password : string := String Ascii.zero "pw".

Definition bob_with_nul : UserLogin :=
  {| ul_email := "bob@example.com"; ul_password := nul_password |}.
Definition alice_with_nul : UserLogin :=
  {| ul_email := "alice@example.com"; ul_password := nul_password |}.

(** Alice registered at clock 100 and logged in at 300; at 502 a row is
    logged for user 9, whom the users table does not hold. *)
Definition alice_and_stranger : world :=
  snd (log_activity (calm 502) (JInt 9) "export" None None (Some "10.0.0.9")
         (snd (login config (calm 300) alice_login peer world_with_alice))).

Definition no_peer : Request := {| client := None |}.

Definition bob : UserCreate :=
  {| uc_email := "bob@example.com"; uc_password := "hunter2";
     uc_name := "Bob"; uc_role := "member" |}.

(** Somebody who registers under Alice's address, as an administrator. *)
Definition self_made_admin : UserCreate :=
  {| uc_email := "alice@example.com"; uc_password := "letmein";
     uc_name := "Mallory"; uc_role := "admin" |}.

Definition world_with_bob : world :=
  snd (register config (calm 50) bob peer empty_world).

(** What [register] answered Alice, and the self-made administrator. *)
Definition alice_response : TokenResponse :=
  {| access_token := member_token; token_type := "bearer";
     user := {| ur_id := 1; ur_email := "alice@example.com"; ur_name := "Alice";
                ur_role := "member"; ur_is_active := true |} |}.

Definition admin_response : TokenResponse :=
  {| access_token := admin_token; token_type := "bearer";
     user := {| ur_id := 2; ur_email := "alice@example.com"; ur_name := "Mallory";
                ur_role := "admin"; ur_is_active := true |} |}.

Definition world_with_admin : world :=
  snd (register config (calm 100) self_made_admin peer world_with_bob).

Definition main_street : AddressLookupRequest := {| address := "1 Main St" |}.

Definition member_claims : dict := claims 1 "member" (JInt 86500).

(** SQLite reads no text of these runs as a number. *)
Definition no_numeric_text : string -> option Z := fun _ => None.

(** Python's part, for the runs: the text of 0.5 in the place of the
    number, one text for every list, one date. *)
Definition python : Python :=
  {| half := JStr "0.5";
     str_of_list := fun _ => "[...]";
     date_a_year_before := fun _ => "2023-06-01" |}.

Definition buyers_in_austin : BuyerSearchRequest :=
  {| bs_city := "Austin"; bs_state := "TX"; bs_min_purchases := Some 1;
     bs_max_results := Some 20 |}.

End Cases.

(** * Properties *)

(** ** Generic facts about the monad *)

(** Case analysis on what the run of a handler branches on next: the
    innermost scrutinee, which is the one evaluated first. *)
Ltac branch :=
  match goal with
  | |- context [match ?x with _ => _ end] =>
      lazymatch x with
      | context [match _ with _ => _ end] => fail
      | _ => destruct x eqn:?
      end
  end.

Ltac unfold_monad :=
  unfold bind, lift, raise, raise_http, ret, gets, modify in *.

Lemma bind_fail_http {A B} (m : M A) (f : A -> M B) w s d w' :
  m w = (HTTPException s d, w') -> bind m f w = (HTTPException s d, w').
Proof. intros H; unfold bind; rewrite H; reflexivity. Qed.

Lemma bind_fail_exn {A B} (m : M A) (f : A -> M B) w e w' :
  m w = (Uncaught e, w') -> bind m f w = (Uncaught e, w').
Proof. intros H; unfold bind; rewrite H; reflexivity. Qed.

Lemma bind_return {A B} (m : M A) (f : A -> M B) w a w' :
  m w = (Return a, w') -> bind m f w = f a w'.
Proof. intros H; unfold bind; rewrite H; reflexivity. Qed.

(** *** Frames: what a computation leaves alone *)

Lemma keeps_bind {A B X} (proj : world -> X) (m : M A) (f : A -> M B) :
  keeps proj m -> (forall a, keeps proj (f a)) -> keeps proj (bind m f).
Proof.
  intros Hm Hf w. unfold bind. specialize (Hm w).
  destruct (m w) as [[a | s d | e] w1]; simpl in *; try assumption.
  rewrite Hf. assumption.
Qed.

Lemma keeps_lift {A X} (proj : world -> X) (o : outcome A) : keeps proj (lift o).
Proof. intros w; reflexivity. Qed.

Lemma keeps_ret {A X} (proj : world -> X) (a : A) : keeps proj (ret a).
Proof. intros w; reflexivity. Qed.

Lemma keeps_raise {A X} (proj : world -> X) e : keeps proj (@raise A e).
Proof. intros w; reflexivity. Qed.

Lemma keeps_raise_http {A X} (proj : world -> X) s d :
  keeps proj (@raise_http A s d).
Proof. intros w; reflexivity. Qed.

Lemma keeps_gets {A X} (proj : world -> X) (f : world -> A) : keeps proj (gets f).
Proof. intros w; reflexivity. Qed.

Lemma keeps_db_exec {X} (proj : world -> X) E st : keeps proj (db_exec E st).
Proof. intros w; unfold db_exec; destruct (db_fault E st); reflexivity. Qed.

Create HintDb frame.
#[export] Hint Resolve keeps_lift keeps_ret keeps_raise keeps_raise_http
  keeps_gets keeps_db_exec : frame.

Ltac frame :=
  repeat first
    [ progress intros
    | solve [auto with frame]
    | apply keeps_bind
    | match goal with
      | |- keeps _ (if ?b then _ else _) => destruct b
      | |- keeps _ (match ?x with _ => _ end) => destruct x
      end ].

Lemma log_activity_keeps_users E uid action endpoint details ip :
  keeps users (log_activity E uid action endpoint details ip).
Proof. unfold log_activity. frame. intros w; reflexivity. Qed.

Lemma log_activity_keeps_calls E uid action endpoint details ip :
  keeps upstream_calls (log_activity E uid action endpoint details ip).
Proof. unfold log_activity. frame. intros w; reflexivity. Qed.

Lemma log_activity_keeps_issued E uid action endpoint details ip :
  keeps issued (log_activity E uid action endpoint details ip).
Proof. unfold log_activity. frame. intros w; reflexivity. Qed.

#[export] Hint Resolve log_activity_keeps_users log_activity_keeps_calls
  log_activity_keeps_issued : frame.

Section Properties.

Context {L : Libraries}.
Variable config : Config.

(** ** Property search: a zero minimum is no minimum *)

(** C9: with [min_equity = 0] (or [min_year_built = 0]) the filter list
    is the one built when the field is absent, it holds no filter on the
    corresponding column, and the whole handler run (provider call
    included) is the same as with the field absent. *)
Theorem zero_minimum_is_no_filter :
  forall (req : PropertySearchRequest),
    search_filters (with_min_equity (Some 0) req)
      = search_filters (with_min_equity None req)
    /\ search_filters (with_min_year_built (Some 0) req)
      = search_filters (with_min_year_built None req)
    /\ filters_on "equity_percent" (search_filters (with_min_equity (Some 0) req)) = false
    /\ filters_on "year_built" (search_filters (with_min_year_built (Some 0) req)) = false
    /\ (forall E request user w,
          search_properties E (with_min_equity (Some 0) req) request user w
          = search_properties E (with_min_equity None req) request user w)
    /\ (forall E request user w,
          search_properties E (with_min_year_built (Some 0) req) request user w
          = search_properties E (with_min_year_built None req) request user w).
Proof.
  intros req.
  assert (He : search_filters (with_min_equity (Some 0) req)
               = search_filters (with_min_equity None req)) by reflexivity.
  assert (Hy : search_filters (with_min_year_built (Some 0) req)
               = search_filters (with_min_year_built None req)) by reflexivity.
  split; [exact He|]. split; [exact Hy|].
  split; [|split; [|split]].
  - unfold search_filters, filters_on; simpl.
    destruct (flag_given (absentee_only req)), (int_given (min_year_built req));
      reflexivity.
  - unfold search_filters, filters_on; simpl.
    destruct (int_given (min_equity req)), (flag_given (absentee_only req));
      reflexivity.
  - intros. unfold search_properties. rewrite He. reflexivity.
  - intros. unfold search_properties. rewrite Hy. reflexivity.
Qed.

(** ** AI assistant: the echoed model *)

Lemma query_openai_calls E prompt context w :
  upstream_calls w
    ++ (if String.eqb (OPENAI_API_KEY config) "" then []
        else [OpenAICall (openai_payload prompt context)])
  = upstream_calls (snd (query_openai config E prompt context w)).
Proof.
  unfold query_openai.
  destruct (String.eqb (OPENAI_API_KEY config) ""); simpl.
  - apply app_nil_r.
  - unfold bind, record_call, modify; simpl.
    destruct (openai_reply E (openai_payload prompt context)); simpl.
    + unfold lift; reflexivity.
    + reflexivity.
Qed.

(** C10: the response of [ai_query] carries the model named in the
    request (the default of the request model is "gpt-4o"), while the one
    payload sent to the AI provider, when a key is configured, names
    "gpt-4o" whatever the request asked for. *)
Theorem ai_query_echoes_requested_model :
  forall (E : env) (req : AIQueryRequest) (request : Request) (user : dict)
         (w : world),
    let run := ai_query config E req request user w in
    let sent := OpenAICall (openai_payload (query req)
                              (Some (context_or_default (context req)))) in
    (forall r, fst run = Return r ->
       py_get r "model" JNull = Return (opt_str (model req)))
    /\ upstream_calls (snd run)
       = upstream_calls w
         ++ (if String.eqb (OPENAI_API_KEY config) "" then [] else [sent])
    /\ payload_model sent = Some (JStr "gpt-4o")
    /\ AIQueryRequest_default_model = Some "gpt-4o".
Proof.
  intros E req request user w run sent.
  split; [|split; [|split; reflexivity]].
  - intros r. subst run. unfold ai_query, bind.
    repeat (branch; try discriminate).
    unfold ret. simpl. intros H; inversion H; reflexivity.
  - subst run sent. unfold ai_query.
    rewrite (query_openai_calls E (query req) (Some (context_or_default (context req))) w).
    unfold bind at 1.
    destruct (query_openai config E (query req)
                (Some (context_or_default (context req))) w)
      as [[response | s d | e] w1]; simpl; try reflexivity.
    assert (K : forall response',
      keeps upstream_calls
        (user_id <- lift (py_item (JObj user) "user_id") ;;
         ip <- lift (client_host request) ;;
         log_activity E user_id "ai_query" (Some "/api/v1/ai/query")
           (Some (str_prefix 100 (query req))) (Some ip) ;;;
         ret (JObj [("response", response'); ("model", opt_str (model req))])))
      by frame.
    apply K.
Qed.

(** ** Token validation *)

Lemma decode_token_fails_with_401 E token :
  succeeded (decode_token config E token) = false ->
  decode_token config E token = HTTPException 401 "Token expired"
  \/ decode_token config E token = HTTPException 401 "Invalid token".
Proof.
  unfold decode_token.
  destruct (jwt_decode _ _ _ _) as [p | e]; simpl; [discriminate|].
  intros _. destruct e; simpl; auto.
Qed.

(** C2: [decode_token] fails with "Invalid token" (the malformed kind)
    when the string has no valid structure, names another algorithm or
    carries a signature that does not verify; it
    fails with "Token expired" (the expired kind) when structure and
    signature are valid and the clock is past the encoded expiry; a token
    whose encoded expiry is in the past is rejected whatever else holds
    of it; every failure has status 401, and the two kinds differ in
    their detail. *)
Theorem decode_token_failure_kinds :
  forall (E : env) (token : string),
    let result := decode_token config E token in
    let malformed : outcome dict := HTTPException 401 "Invalid token" in
    let expired : outcome dict := HTTPException 401 "Token expired" in
    (jws_parse token = None -> result = malformed)
    /\ (forall t, jws_parse token = Some t ->
          jws_alg t <> JWT_ALGORITHM -> result = malformed)
    /\ (forall t, jws_parse token = Some t ->
          hmac_sha256 (JWT_SECRET config) (jws_input t) <> jws_signature t ->
          result = malformed)
    /\ (forall t e, jws_parse token = Some t ->
          jws_alg t = JWT_ALGORITHM ->
          hmac_sha256 (JWT_SECRET config) (jws_input t) = jws_signature t ->
          dict_get "exp" (jws_payload t) = Some (JInt e) ->
          e < utcnow E -> result = expired)
    /\ (forall t e, jws_parse token = Some t ->
          dict_get "exp" (jws_payload t) = Some (JInt e) ->
          e < utcnow E -> result = expired \/ result = malformed)
    /\ (succeeded result = false -> http_status result = 401)
    /\ http_status malformed = 401 /\ http_status expired = 401
    /\ malformed <> expired.
Proof.
  intros E token result malformed expired. subst result malformed expired.
  unfold decode_token, jwt_decode.
  repeat match goal with |- _ /\ _ => split end.
  - intros ->. reflexivity.
  - intros t -> Halg. simpl.
    destruct (String.eqb_spec (jws_alg t) JWT_ALGORITHM); [contradiction|].
    reflexivity.
  - intros t -> Hsig. simpl.
    destruct (String.eqb (jws_alg t) JWT_ALGORITHM); [|reflexivity]. simpl.
    destruct (String.eqb_spec (hmac_sha256 (JWT_SECRET config) (jws_input t))
                (jws_signature t)); [contradiction|].
    reflexivity.
  - intros t e -> Halg Hsig Hexp Hlt. simpl.
    rewrite Halg, Hsig, !String.eqb_refl, Hexp. simpl.
    destruct (Z.leb_spec e (utcnow E)); [reflexivity | lia].
  - intros t e -> Hexp Hlt. simpl.
    destruct (String.eqb (jws_alg t) JWT_ALGORITHM); [|right; reflexivity]. simpl.
    destruct (String.eqb _ (jws_signature t)); [|right; reflexivity]. simpl.
    rewrite Hexp.
    destruct (Z.leb_spec e (utcnow E)); [left; reflexivity | lia].
  - intros H.
    destruct (decode_token_fails_with_401 E token H) as [H1 | H1];
      unfold decode_token, jwt_decode in H1; rewrite H1; reflexivity.
  - reflexivity.
  - reflexivity.
  - discriminate.
Qed.

(** ** The access guard *)

Lemma require_role_rejects allowed_roles E credentials w :
  turned_away config allowed_roles E credentials ->
  exists s d,
    require_role config allowed_roles E credentials w = (HTTPException s d, w)
    /\ (s = 401 \/ s = 403).
Proof.
  intros [Hfail | (user & role & Hdec & Hrole & Hin)].
  - destruct (decode_token_fails_with_401 E credentials Hfail) as [H | H];
      eexists _, _; (split; [|left; reflexivity]);
      unfold require_role, get_current_user, bind, lift; rewrite H; reflexivity.
  - exists 403, "Insufficient permissions". split; [|right; reflexivity].
    unfold require_role, get_current_user, bind, lift. rewrite Hdec. simpl.
    rewrite Hrole, Hin. reflexivity.
Qed.

Lemma guarded_route_rejects {A} allowed_roles E credentials
    (handler : dict -> M A) w :
  turned_away config allowed_roles E credentials ->
  exists s d,
    bind (require_role config allowed_roles E credentials) handler w
      = (HTTPException s d, w)
    /\ (s = 401 \/ s = 403).
Proof.
  intros H.
  destruct (require_role_rejects allowed_roles E credentials w H)
    as (s & d & Hr & Hs).
  exists s, d. split; [|exact Hs].
  apply bind_fail_http. exact Hr.
Qed.

Lemma rejected_untouched_intro {A} (run : outcome A * world) w s d :
  run = (HTTPException s d, w) -> s = 401 \/ s = 403 -> rejected_untouched run w.
Proof. intros -> Hs. repeat split; assumption. Qed.

(** C1: on each role-gated route (skip trace, user listing, activity
    listing), a request whose token fails validation, or whose token
    carries a role outside the route's allowed set, is answered 401 or
    403 and leaves the world as it was: no row is added to the activity
    log and no call goes to a provider. *)
Theorem role_gate_rejects_before_side_effects :
  forall (E : env) (credentials : string) (w : world),
    (forall req request,
       turned_away config skip_trace_roles E credentials ->
       rejected_untouched (skip_trace_route config E credentials req request w) w)
    /\ (turned_away config ["admin"] E credentials ->
        rejected_untouched (list_users_route config E credentials w) w)
    /\ (forall limit,
        turned_away config ["admin"; "manager"] E credentials ->
        rejected_untouched (get_activity_route config E credentials limit w) w).
Proof.
  intros E credentials w. split; [|split]; intros.
  all: match goal with
       | H : turned_away _ ?roles _ _ |- rejected_untouched (?route) _ =>
           let s := fresh "s" in let d := fresh "d" in
           let Hr := fresh "Hr" in let Hs := fresh "Hs" in
           unfold skip_trace_route, list_users_route, get_activity_route;
           match goal with
           | |- rejected_untouched (bind _ ?h _) _ =>
               destruct (guarded_route_rejects roles E credentials h w H)
                 as (s & d & Hr & Hs);
               exact (rejected_untouched_intro _ w s d Hr Hs)
           end
       end.
Qed.

(** ** Login *)

Lemma login_storage_fault E credentials request w :
  db_fault E SelectUserByEmail = true ->
  login config E credentials request w = (Uncaught SqliteError, w).
Proof.
  intros H. unfold login, db_exec. rewrite H. reflexivity.
Qed.

(** The run of [login] once the row is found and the password checked. *)
Lemma login_checked E credentials request w u ok :
  db_fault E SelectUserByEmail = false ->
  find_user_by_email (ul_email credentials) w = Some u ->
  bcrypt_verify (ul_password credentials) (u_password_hash u) = Some ok ->
  login config E credentials request w
  = if ok
    then if negb (u_is_active u)
         then (HTTPException 401 "Account disabled", w)
         else (touch_login E (u_id u) ;;;
               token <- create_token config E (u_id u) (u_email u) (u_role u) ;;
               ip <- lift (client_host request) ;;
               log_activity E (JInt (u_id u)) "login" (Some "/api/v1/auth/login")
                            None (Some ip) ;;;
               ret {| access_token := token; token_type := "bearer";
                      user := {| ur_id := u_id u; ur_email := u_email u;
                                 ur_name := u_name u; ur_role := u_role u;
                                 ur_is_active := true |} |}) w
    else (HTTPException 401 "Invalid credentials", w).
Proof.
  intros Hsel Hfind Hver.
  unfold login, db_exec. rewrite Hsel.
  unfold bind at 1. unfold ret at 1.
  unfold bind at 1. unfold gets at 1. rewrite Hfind.
  unfold bind at 1. unfold lift at 1. unfold credentials_rejected. rewrite Hver.
  destruct ok; simpl; [|reflexivity].
  destruct (u_is_active u); reflexivity.
Qed.

(** C3: for a user whose active flag is off, [login] with that user's
    email and correct password ends in 401 "Account disabled" and leaves
    the world as it was; in particular no token has been issued. *)
Theorem inactive_user_rejected_before_issuance :
  forall (E : env) (credentials : UserLogin) (request : Request) (w : world)
         (u : user_row),
    find_user_by_email (ul_email credentials) w = Some u ->
    bcrypt_verify (ul_password credentials) (u_password_hash u) = Some true ->
    u_is_active u = false ->
    db_fault E SelectUserByEmail = false ->
    let run := login config E credentials request w in
    fst run = HTTPException 401 "Account disabled"
    /\ http_status (fst run) = 401
    /\ issued (snd run) = issued w
    /\ snd run = w.
Proof.
  intros E credentials request w u Hfind Hver Hoff Hsel run. subst run.
  rewrite (login_checked E credentials request w u true Hsel Hfind Hver).
  rewrite Hoff. simpl. repeat split; reflexivity.
Qed.

(** Where the password check answers [False], [login] does not tell a
    registered email from an unknown one: the two logins end the same
    way, with the same status and the same message, and neither changes
    the world.  (A password check that raises is not an answer: that
    login ends in an unhandled error.) *)
Theorem login_failures_indistinguishable :
  forall (E1 E2 : env) (c1 c2 : UserLogin) (request1 request2 : Request)
         (w1 w2 : world) (u : user_row),
    find_user_by_email (ul_email c1) w1 = None ->
    find_user_by_email (ul_email c2) w2 = Some u ->
    bcrypt_verify (ul_password c2) (u_password_hash u) = Some false ->
    db_fault E1 SelectUserByEmail = false ->
    db_fault E2 SelectUserByEmail = false ->
    fst (login config E1 c1 request1 w1) = fst (login config E2 c2 request2 w2)
    /\ fst (login config E1 c1 request1 w1)
       = HTTPException 401 "Invalid credentials"
    /\ snd (login config E1 c1 request1 w1) = w1
    /\ snd (login config E2 c2 request2 w2) = w2.
Proof.
  intros E1 E2 c1 c2 request1 request2 w1 w2 u Hnone Hfind Hver Hs1 Hs2.
  rewrite (login_checked E2 c2 request2 w2 u false Hs2 Hfind Hver).
  assert (H1 : login config E1 c1 request1 w1
               = (HTTPException 401 "Invalid credentials", w1)).
  { unfold login, db_exec. rewrite Hs1.
    unfold bind at 1. unfold ret at 1.
    unfold bind at 1. unfold gets at 1. rewrite Hnone. reflexivity. }
  rewrite H1. repeat split; reflexivity.
Qed.

(** [touch_login] either fails and changes nothing, or stamps the rows
    with the given id. *)
Lemma touch_login_fault E id w :
  db_fault E UpdateLastLogin = true ->
  touch_login E id w = (Uncaught SqliteError, w).
Proof. intros H. unfold touch_login, db_exec. rewrite H. reflexivity. Qed.

Lemma touch_login_keeps_issued E id : keeps issued (touch_login E id).
Proof. unfold touch_login. frame. intros w; reflexivity. Qed.

Lemma touch_login_keeps_log E id : keeps activity_log (touch_login E id).
Proof. unfold touch_login. frame. intros w; reflexivity. Qed.

(** C7, as the code has it: the last-login update runs inside [login],
    before the token is made.  When the update fails, the login ends in
    an unhandled storage error (status 500), no token is issued and the
    world is unchanged; when it goes through (and the audit write after
    it too), the login returns the token. *)
Theorem last_login_update_precedes_issuance :
  forall (E : env) (credentials : UserLogin) (request : Request) (w : world)
         (u : user_row),
    db_fault E SelectUserByEmail = false ->
    find_user_by_email (ul_email credentials) w = Some u ->
    bcrypt_verify (ul_password credentials) (u_password_hash u) = Some true ->
    u_is_active u = true ->
    let run := login config E credentials request w in
    let token := jwt_encode (token_payload (utcnow E) (u_id u) (u_email u) (u_role u))
                            (JWT_SECRET config) JWT_ALGORITHM in
    (db_fault E UpdateLastLogin = true ->
       run = (Uncaught SqliteError, w) /\ http_status (fst run) = 500
       /\ issued (snd run) = issued w)
    /\ (db_fault E UpdateLastLogin = false ->
        forall ip,
          client request = Some ip ->
          db_fault E InsertActivity = false ->
          - 2 ^ 63 <= u_id u < 2 ^ 63 ->
          (exists response, fst run = Return response
                            /\ access_token response = token)
          /\ issued (snd run) = issued w ++ [token]).
Proof.
  intros E credentials request w u Hsel Hfind Hver Hon run token.
  subst run.
  rewrite (login_checked E credentials request w u true Hsel Hfind Hver).
  rewrite Hon. cbn [negb].
  split.
  - intros Hfault.
    rewrite (bind_fail_exn _ _ w SqliteError w (touch_login_fault E (u_id u) w Hfault)).
    repeat split; reflexivity.
  - intros Hok ip Hip Hlog Hrange.
    unfold touch_login, create_token, log_activity, db_exec, client_host, sql_bind.
    rewrite Hok, Hip, Hlog.
    assert (Hr : (- 2 ^ 63 <=? u_id u) && (u_id u <? 2 ^ 63) = true).
    { apply andb_true_iff. split; [apply Z.leb_le | apply Z.ltb_lt]; lia. }
    rewrite Hr.
    unfold bind, ret, lift, modify. simpl.
    split; [eexists; split; reflexivity | reflexivity].
Qed.

(** ** The audit write *)

Lemma never_bind_l {A B} (m : M A) (f : A -> M B) :
  never_returns m -> never_returns (bind m f).
Proof.
  intros H w. specialize (H w). unfold bind.
  destruct (m w) as [[a | s d | e] w']; simpl in *; congruence.
Qed.

Lemma never_bind_r {A B} (m : M A) (f : A -> M B) :
  (forall a, never_returns (f a)) -> never_returns (bind m f).
Proof.
  intros H w. unfold bind.
  destruct (m w) as [[a | s d | e] w']; simpl; auto. apply H.
Qed.

Lemma never_raise_http {A} s d : never_returns (@raise_http A s d).
Proof. intros w; reflexivity. Qed.

Lemma log_activity_fault E uid action endpoint details ip :
  db_fault E InsertActivity = true ->
  never_returns (log_activity E uid action endpoint details ip).
Proof.
  intros H w. unfold log_activity, db_exec. rewrite H.
  unfold bind, lift, raise. destruct (sql_bind uid); reflexivity.
Qed.

Lemma log_activity_fault_world E uid action endpoint details ip w :
  db_fault E InsertActivity = true ->
  snd (log_activity E uid action endpoint details ip w) = w.
Proof.
  intros H. unfold log_activity, db_exec. rewrite H.
  unfold bind, lift, raise. destruct (sql_bind uid); reflexivity.
Qed.

(** Every handler ends in [log_activity ... ;;; ret ...]: follow the
    binds down to it. *)
Ltac to_the_log H :=
  repeat first
    [ progress intros
    | solve [apply never_bind_l; apply log_activity_fault; exact H]
    | solve [apply never_raise_http]
    | match goal with
      | |- never_returns (if ?b then _ else _) => destruct b
      | |- never_returns (match ?x with _ => _ end) => destruct x
      end
    | apply never_bind_r ].

(** With the audit write failing, a handler that ends in
    [log_activity ... ;;; ret ...] ends in the storage error wherever it
    returns otherwise: the steps before the write are the same steps. *)
Lemma audit_fails_bind {A B} (m m' : M A) (f f' : A -> M B) :
  (forall w, m' w = m w) ->
  (forall a, ends_in_500_where_returns (f a) (f' a)) ->
  ends_in_500_where_returns (bind m f) (bind m' f').
Proof.
  intros Hm Hf w. unfold bind. rewrite Hm.
  destruct (m w) as [[a | s d | e] w1]; simpl; [apply Hf | discriminate..].
Qed.

Lemma audit_fails_raise_http {A} s d (m' : M A) :
  ends_in_500_where_returns (raise_http s d) m'.
Proof. intros w; simpl; discriminate. Qed.

Lemma audit_fails_at_log {B} E uid action endpoint details ip (f f' : unit -> M B) :
  ends_in_500_where_returns
    (bind (log_activity E uid action endpoint details ip) f)
    (bind (log_activity (with_fault InsertActivity E) uid action endpoint details ip) f').
Proof.
  intros w. unfold log_activity, db_exec, bind, lift, raise.
  destruct (sql_bind uid) as [v | s d | e]; simpl; [auto | discriminate..].
Qed.

Ltac audit_fails :=
  repeat first
    [ progress intros
    | solve [apply audit_fails_at_log]
    | solve [apply audit_fails_raise_http]
    | match goal with
      | |- ends_in_500_where_returns (if ?b then _ else _) _ => destruct b
      | |- ends_in_500_where_returns (match ?x with _ => _ end) _ => destruct x
      end
    | apply audit_fails_bind; [intros; reflexivity|] ].

(** C6, as the code has it: [log_activity] has no handler around it, so
    a failed audit write ends the request in an unhandled storage error.
    For a property search the provider has been called by then; the
    status is 500 when the write fails and 200 when it goes through.
    With the write failing, none of the logged operations returns; and
    each of the eight of them ([register], [login], [search_properties],
    [lookup_property], [get_comps], [skip_trace], [search_buyers],
    [ai_query]), on every input on which it returns when the write goes
    through, ends in the storage error, status 500, when the write
    fails and nothing else differs. *)
Theorem audit_write_failure_propagates :
  forall (P : Python) (E : env),
    (forall req request user w uid v ip,
       dict_get "user_id" user = Some uid ->
       sql_bind uid = Return v ->
       client request = Some ip ->
       let run := search_properties E req request user w in
       let call := RealEstateCall "PropertySearch"
                     (JObj [("search", JArr (search_filters req));
                            ("size", opt_int (max_results req))]) in
       upstream_calls (snd run) = upstream_calls w ++ [call]
       /\ (db_fault E InsertActivity = true ->
           fst run = Uncaught SqliteError /\ http_status (fst run) = 500
           /\ activity_log (snd run) = activity_log w)
       /\ (db_fault E InsertActivity = false ->
           (exists result, fst run = Return result)
           /\ http_status (fst run) = 200
           /\ List.length (activity_log (snd run))
              = S (List.length (activity_log w))))
    /\ (db_fault E InsertActivity = true ->
        (forall req request user, never_returns (search_properties E req request user))
        /\ (forall req request user, never_returns (skip_trace E req request user))
        /\ (forall req request user, never_returns (ai_query config E req request user))
        /\ (forall credentials request, never_returns (login config E credentials request))
        /\ (forall user request, never_returns (register config E user request)))
    /\ (let E' := with_fault InsertActivity E in
        (forall user request,
           ends_in_500_where_returns (register config E user request)
                                     (register config E' user request))
        /\ (forall credentials request,
              ends_in_500_where_returns (login config E credentials request)
                                        (login config E' credentials request))
        /\ (forall req request user,
              ends_in_500_where_returns (search_properties E req request user)
                                        (search_properties E' req request user))
        /\ (forall req request user,
              ends_in_500_where_returns (lookup_property E req request user)
                                        (lookup_property E' req request user))
        /\ (forall req request user,
              ends_in_500_where_returns (get_comps E req request user)
                                        (get_comps E' req request user))
        /\ (forall req request user,
              ends_in_500_where_returns (skip_trace E req request user)
                                        (skip_trace E' req request user))
        /\ (forall req request user,
              ends_in_500_where_returns (search_buyers E req request user)
                                        (search_buyers E' req request user))
        /\ (forall req request user,
              ends_in_500_where_returns (ai_query config E req request user)
                                        (ai_query config E' req request user))).
Proof.
  intros P E. split; [|split].
  - intros req request user w uid v ip Huid Hbind Hip run call. subst run call.
    unfold search_properties, re_property_search, re_post, record_call,
      log_activity, db_exec, client_host, py_item.
    rewrite Huid, Hip.
    unfold bind, ret, lift, modify, raise.
    destruct (realestate_reply E _ _); rewrite Hbind;
      (split; [|split]); intros; simpl;
      try match goal with H : db_fault _ _ = _ |- _ => rewrite H end; simpl;
      try (destruct (db_fault E InsertActivity); reflexivity).
    all: repeat split; try reflexivity; try (eexists; reflexivity).
    all: rewrite length_app; simpl; lia.
  - intros H. repeat split.
    + unfold search_properties. to_the_log H.
    + unfold skip_trace. to_the_log H.
    + unfold ai_query. to_the_log H.
    + unfold login. to_the_log H.
    + unfold register. to_the_log H.
  - intros E'. subst E'.
    split; [|split; [|split; [|split; [|split; [|split; [|split]]]]]].
    + unfold register. audit_fails.
    + unfold login. audit_fails.
    + unfold search_properties. audit_fails.
    + unfold lookup_property. audit_fails.
    + unfold get_comps. audit_fails.
    + unfold skip_trace. audit_fails.
    + unfold search_buyers. audit_fails.
    + unfold ai_query. audit_fails.
Qed.

(** ** Register, then login *)

Lemma find_app_none {A} (f : A -> bool) (l l' : list A) :
  find f l = None -> find f (l ++ l') = find f l'.
Proof.
  induction l as [|a l IH]; simpl; [reflexivity|].
  destruct (f a); [discriminate | exact IH].
Qed.

(** A token made by [create_token] at clock [issued_at] validates until
    it expires, and validation gives back its payload. *)
Lemma decode_fresh_token E issued_at user_id email role :
  jwt_reads_back (token_payload issued_at user_id email role) (JWT_SECRET config) ->
  utcnow E < issued_at + 86400 ->
  decode_token config E
    (jwt_encode (token_payload issued_at user_id email role)
                (JWT_SECRET config) JWT_ALGORITHM)
  = Return (token_payload issued_at user_id email role).
Proof.
  intros Hback Hfresh. unfold decode_token, jwt_decode.
  rewrite Hback. cbn [jws_alg jws_input jws_signature jws_payload existsb].
  rewrite !String.eqb_refl. cbn [orb negb].
  cbn [token_payload dict_get String.eqb Ascii.eqb Bool.eqb].
  unfold JWT_EXPIRY_HOURS. change (24 * 3600) with 86400.
  destruct (Z.leb_spec (issued_at + 86400) (utcnow E)); [lia | reflexivity].
Qed.

(** C5: when the email is not yet in the store and nothing in the
    surroundings fails, [register] returns a token, [login] with the same
    email and password right after returns a token, and validating the
    two tokens before they expire gives payloads with the same
    [user_id], the id of the row [register] inserted. *)
Theorem register_then_login_same_user_id :
  forall (E1 E2 E3 : env) (user : UserCreate) (request1 request2 : Request)
         (w : world) (ip1 ip2 : string),
    find_user_by_email (uc_email user) w = None ->
    (forall st, db_fault E1 st = false) ->
    (forall st, db_fault E2 st = false) ->
    client request1 = Some ip1 ->
    client request2 = Some ip2 ->
    bcrypt_verify (uc_password user)
                  (bcrypt_hash (salt E1) (uc_password user)) = Some true ->
    let uid := next_rowid (users_seq w) (map u_id (users w)) in
    - 2 ^ 63 <= uid < 2 ^ 63 ->
    jwt_reads_back (token_payload (utcnow E1) uid (uc_email user) (uc_role user))
                   (JWT_SECRET config) ->
    jwt_reads_back (token_payload (utcnow E2) uid (uc_email user) (uc_role user))
                   (JWT_SECRET config) ->
    utcnow E3 < utcnow E1 + 86400 ->
    utcnow E3 < utcnow E2 + 86400 ->
    exists r1 w1 r2 w2 p1 p2,
      register config E1 user request1 w = (Return r1, w1)
      /\ login config E2 {| ul_email := uc_email user;
                            ul_password := uc_password user |} request2 w1
         = (Return r2, w2)
      /\ decode_token config E3 (access_token r1) = Return p1
      /\ decode_token config E3 (access_token r2) = Return p2
      /\ dict_get "user_id" p1 = Some (JInt uid)
      /\ dict_get "user_id" p2 = dict_get "user_id" p1.
Proof.
  intros E1 E2 E3 user request1 request2 w ip1 ip2
         Hnew Hok1 Hok2 Hip1 Hip2 Hver uid Hrange Hback1 Hback2 Hfresh1 Hfresh2.
  assert (Hr : (- 2 ^ 63 <=? uid) && (uid <? 2 ^ 63) = true).
  { apply andb_true_iff. split; [apply Z.leb_le | apply Z.ltb_lt]; lia. }
  (* register *)
  assert (Hreg : exists w1,
    register config E1 user request1 w
    = (Return {| access_token :=
                   jwt_encode (token_payload (utcnow E1) uid (uc_email user)
                                 (uc_role user)) (JWT_SECRET config) JWT_ALGORITHM;
                 token_type := "bearer";
                 user := {| ur_id := uid; ur_email := uc_email user;
                            ur_name := uc_name user; ur_role := uc_role user;
                            ur_is_active := true |} |}, w1)
    /\ users w1 = users w ++
         [ {| u_id := uid; u_email := uc_email user;
              u_password_hash := bcrypt_hash (salt E1) (uc_password user);
              u_name := uc_name user; u_role := uc_role user;
              u_is_active := true; u_created_at := utcnow E1;
              u_last_login := None |} ]).
  { unfold register, insert_user, create_token, log_activity, db_exec,
      client_host, sql_bind.
    rewrite !Hok1, Hip1.
    unfold bind at 1. unfold ret at 1.
    unfold bind at 1. unfold gets at 1. rewrite Hnew.
    fold uid. unfold bind, ret, gets, lift, modify. cbn [fst snd users users_seq].
    fold uid. rewrite Hr. eexists. split; reflexivity. }
  destruct Hreg as (w1 & Hreg & Husers).
  (* login finds the new row *)
  set (row := {| u_id := uid; u_email := uc_email user;
                 u_password_hash := bcrypt_hash (salt E1) (uc_password user);
                 u_name := uc_name user; u_role := uc_role user;
                 u_is_active := true; u_created_at := utcnow E1;
                 u_last_login := None |}) in *.
  set (creds := {| ul_email := uc_email user; ul_password := uc_password user |}).
  assert (Hfind : find_user_by_email (ul_email creds) w1 = Some row).
  { unfold find_user_by_email in *. rewrite Husers.
    rewrite (find_app_none _ _ _ Hnew). simpl.
    rewrite String.eqb_refl. reflexivity. }
  assert (Hlogin : exists w2,
    login config E2 creds request2 w1
    = (Return {| access_token :=
                   jwt_encode (token_payload (utcnow E2) uid (uc_email user)
                                 (uc_role user)) (JWT_SECRET config) JWT_ALGORITHM;
                 token_type := "bearer";
                 user := {| ur_id := uid; ur_email := uc_email user;
                            ur_name := uc_name user; ur_role := uc_role user;
                            ur_is_active := true |} |}, w2)).
  { rewrite (login_checked E2 creds request2 w1 row true (Hok2 _) Hfind Hver).
    cbn [u_is_active row negb].
    unfold touch_login, create_token, log_activity, db_exec, client_host, sql_bind.
    rewrite !Hok2, Hip2. cbn [u_id row]. rewrite Hr.
    unfold bind, ret, lift, modify. simpl. eexists. reflexivity. }
  destruct Hlogin as (w2 & Hlogin).
  eexists _, w1, _, w2, _, _.
  split; [exact Hreg|]. split; [exact Hlogin|].
  cbn [access_token].
  split; [apply (decode_fresh_token E3 _ _ _ _ Hback1 Hfresh1)|].
  split; [apply (decode_fresh_token E3 _ _ _ _ Hback2 Hfresh2)|].
  split; reflexivity.
Qed.

End Properties.

(** ** The activity listing *)

Lemma insert_desc_perm a l : Permutation (insert_desc a l) (a :: l).
Proof.
  induction l as [|b l IH]; simpl; [apply Permutation_refl|].
  destruct (a_created_at a <? a_created_at b).
  - eapply perm_trans; [apply perm_skip, IH | apply perm_swap].
  - apply Permutation_refl.
Qed.

Lemma order_by_perm l : Permutation (order_by_created_at_desc l) l.
Proof.
  induction l as [|a l IH]; simpl; [apply perm_nil|].
  eapply perm_trans; [apply insert_desc_perm | apply perm_skip, IH].
Qed.

Lemma insert_desc_sorted a l :
  StronglySorted newer_or_same_row l ->
  StronglySorted newer_or_same_row (insert_desc a l).
Proof.
  induction 1 as [|b l Hs IH Hb]; simpl.
  - constructor; constructor.
  - destruct (Z.ltb_spec (a_created_at a) (a_created_at b)).
    + constructor; [exact IH|].
      apply Forall_forall. intros x Hx.
      apply (Permutation_in _ (insert_desc_perm a l)) in Hx.
      destruct Hx as [<- | Hx]; [unfold newer_or_same_row; lia|].
      rewrite Forall_forall in Hb. apply Hb, Hx.
    + constructor; [constructor; assumption|].
      constructor; [unfold newer_or_same_row; lia|].
      rewrite Forall_forall in *. intros x Hx.
      specialize (Hb x Hx). unfold newer_or_same_row in *. lia.
Qed.

Lemma order_by_sorted l :
  StronglySorted newer_or_same_row (order_by_created_at_desc l).
Proof.
  induction l as [|a l IH]; simpl; [constructor | apply insert_desc_sorted, IH].
Qed.

Lemma firstn_sorted {A} (R : A -> A -> Prop) n l :
  StronglySorted R l -> StronglySorted R (firstn n l).
Proof.
  intros H. revert n. induction H as [|a l Hs IH Ha]; intros [|n]; simpl;
    try constructor.
  - apply IH.
  - rewrite Forall_forall in *. intros x Hx.
    apply Ha. rewrite <- (firstn_skipn n l). apply in_or_app. left. exact Hx.
Qed.

Lemma sql_limit_sorted {A} (R : A -> A -> Prop) n l :
  StronglySorted R l -> StronglySorted R (sql_limit n l).
Proof.
  intros H. unfold sql_limit. destruct (n <? 0); [exact H|].
  apply firstn_sorted, H.
Qed.

Lemma sql_limit_incl {A} n (l : list A) x : In x (sql_limit n l) -> In x l.
Proof.
  unfold sql_limit. destruct (n <? 0); [trivial|].
  intros H. rewrite <- (firstn_skipn (Z.to_nat n) l).
  apply in_or_app. left. exact H.
Qed.

Lemma join_sorted us l :
  StronglySorted newer_or_same_row l ->
  StronglySorted newer_or_same (map (join_actor us) l).
Proof.
  induction 1 as [|a l Hs IH Ha]; simpl; constructor; [exact IH|].
  rewrite Forall_forall in *. intros v Hv.
  apply in_map_iff in Hv. destruct Hv as (b & <- & Hb).
  apply (Ha b Hb).
Qed.

(** Two rows newer than all the others, appended last, come out first. *)
Lemma order_by_two_newest older r2 r3 :
  (forall a, In a older -> a_created_at a < a_created_at r2) ->
  a_created_at r2 < a_created_at r3 ->
  order_by_created_at_desc (older ++ [r2; r3])
  = r3 :: r2 :: order_by_created_at_desc older.
Proof.
  intros Hold H23. induction older as [|a older IH]; simpl.
  - destruct (Z.ltb_spec (a_created_at r2) (a_created_at r3)); [reflexivity | lia].
  - rewrite IH by (intros b Hb; apply Hold; right; exact Hb).
    assert (Ha : a_created_at a < a_created_at r2) by (apply Hold; left; reflexivity).
    simpl.
    destruct (Z.ltb_spec (a_created_at a) (a_created_at r3)); [|lia].
    destruct (Z.ltb_spec (a_created_at a) (a_created_at r2)); [|lia].
    reflexivity.
Qed.

Lemma find_by_id_unique (l : list user_row) (u : user_row) :
  NoDup (map u_id l) -> In u l ->
  find (fun r => u_id r =? u_id u) l = Some u.
Proof.
  induction l as [|a l IH]; simpl; intros Hnd Hin; [contradiction|].
  inversion Hnd as [|? ? Hnotin Hnd']. subst.
  destruct (Z.eqb_spec (u_id a) (u_id u)) as [Heq | Hne].
  - destruct Hin as [-> | Hin]; [reflexivity|].
    exfalso. apply Hnotin. rewrite Heq. apply in_map, Hin.
  - destruct Hin as [-> | Hin]; [contradiction|]. apply IH; assumption.
Qed.

(** C8, as the code has it: for a limit [N >= 0] the listing has at most
    [N] rows, while a negative limit bounds nothing; the rows are ordered
    by timestamp, newest first (timestamps have a resolution of one
    second); each row listed is a row of the log with its id, action,
    endpoint, details, address and timestamp, and with the name and the
    email of the user whose id the row carries, both null when the row
    carries no user id or no user has it; and when the two rows inserted
    last carry timestamps that differ and are newer than every other one,
    a listing with limit 2 is exactly these two, the newest first.  The
    default limit is 100. *)
Theorem activity_listing_bounded_and_ordered :
  forall (w : world) (limit : Z),
    let listing := select_activity limit w in
    (0 <= limit -> Z.of_nat (List.length listing) <= limit)
    /\ (limit < 0 -> List.length listing = List.length (activity_log w))
    /\ StronglySorted newer_or_same listing
    /\ (forall v, In v listing ->
          exists a,
            In a (activity_log w)
            /\ av_id v = a_id a /\ av_action v = a_action a
            /\ av_endpoint v = a_endpoint a /\ av_details v = a_details a
            /\ av_ip v = a_ip_address a /\ av_timestamp v = a_created_at a
            /\ (forall u,
                  NoDup (map u_id (users w)) ->
                  In u (users w) ->
                  a_user_id a = SqlInt (u_id u) ->
                  av_user_name v = Some (u_name u)
                  /\ av_user_email v = Some (u_email u))
            /\ (a_user_id a = SqlNull
                \/ (exists id, a_user_id a = SqlInt id
                               /\ forall u, In u (users w) -> u_id u <> id) ->
                av_user_name v = None /\ av_user_email v = None))
    /\ (forall older r2 r3,
          activity_log w = older ++ [r2; r3] ->
          (forall a, In a older -> a_created_at a < a_created_at r2) ->
          a_created_at r2 < a_created_at r3 ->
          select_activity 2 w
          = [join_actor (users w) r3; join_actor (users w) r2])
    /\ (forall E user,
          db_fault E SelectActivity = false ->
          - 2 ^ 63 <= limit < 2 ^ 63 ->
          get_activity E limit user w = (Return listing, w))
    /\ get_activity_default_limit = 100.
Proof.
  intros w limit listing. subst listing. unfold select_activity.
  repeat match goal with |- _ /\ _ => split end.
  - intros Hpos. rewrite length_map. unfold sql_limit.
    destruct (Z.ltb_spec limit 0); [lia|].
    rewrite length_firstn. lia.
  - intros Hneg. rewrite length_map. unfold sql_limit.
    destruct (Z.ltb_spec limit 0); [|lia].
    apply Permutation_length, order_by_perm.
  - apply join_sorted, sql_limit_sorted, order_by_sorted.
  - intros v Hv. apply in_map_iff in Hv. destruct Hv as (a & <- & Ha).
    exists a. split.
    { apply sql_limit_incl in Ha.
      apply (Permutation_in _ (order_by_perm (activity_log w))), Ha. }
    do 6 (split; [reflexivity|]).
    unfold join_actor, actor_of; simpl. split.
    + intros u Hnd Hin Hid. rewrite Hid.
      rewrite (find_by_id_unique _ u Hnd Hin). split; reflexivity.
    + intros [Hnull | (id & Hid & Hnone)].
      * rewrite Hnull. split; reflexivity.
      * rewrite Hid.
        assert (Hf : find (fun u => u_id u =? id) (users w) = None).
        { destruct (find _ (users w)) as [u|] eqn:Hfind; [|reflexivity].
          apply find_some in Hfind. destruct Hfind as [Hin Heq].
          apply Z.eqb_eq in Heq. exfalso. exact (Hnone u Hin Heq). }
        rewrite Hf. split; reflexivity.
  - intros older r2 r3 Hlog Hold H23.
    rewrite Hlog, (order_by_two_newest older r2 r3 Hold H23). reflexivity.
  - intros E user Hok Hrange.
    unfold get_activity, db_exec, sql_bind. rewrite Hok.
    assert (Hr : (- 2 ^ 63 <=? limit) && (limit <? 2 ^ 63) = true).
    { apply andb_true_iff. split; [apply Z.leb_le | apply Z.ltb_lt]; lia. }
    rewrite Hr. reflexivity.
  - reflexivity.
Qed.

(** * Runs on the sample instance *)

Section Runs.

Import Sample.
#[local] Existing Instance libraries.

Lemma member_turned_away_from_skip_trace :
  turned_away config skip_trace_roles (calm 300) member_token.
Proof.
  right. exists (claims 1 "member" (JInt 86500)), (JStr "member").
  repeat split; reflexivity.
Defined.

Lemma garbage_turned_away roles : turned_away config roles (calm 300) "garbage".
Proof. left. reflexivity. Defined.

Lemma stale_turned_away roles : turned_away config roles (calm 300) stale_token.
Proof. left. reflexivity. Defined.

Lemma role_gate_rejects_before_side_effects_witness :
  rejected_untouched
    (skip_trace_route config (calm 300) member_token
       {| address := "1 Main St" |} peer world_with_alice) world_with_alice
  /\ rejected_untouched
       (list_users_route config (calm 300) "garbage" world_with_alice)
       world_with_alice
  /\ rejected_untouched
       (get_activity_route config (calm 300) stale_token 100 world_with_alice)
       world_with_alice.
Proof.
  split; [|split].
  - apply (proj1 (role_gate_rejects_before_side_effects config (calm 300)
                    member_token world_with_alice)).
    exact member_turned_away_from_skip_trace.
  - apply (proj1 (proj2 (role_gate_rejects_before_side_effects config (calm 300)
                           "garbage" world_with_alice))).
    exact (garbage_turned_away ["admin"]).
  - apply (proj2 (proj2 (role_gate_rejects_before_side_effects config (calm 300)
                           stale_token world_with_alice))).
    exact (stale_turned_away ["admin"; "manager"]).
Defined.

Lemma decode_token_failure_kinds_witness :
  decode_token config (calm 300) "garbage" = HTTPException 401 "Invalid token"
  /\ decode_token config (calm 300) forged_token = HTTPException 401 "Invalid token"
  /\ decode_token config (calm 300) stale_token = HTTPException 401 "Token expired".
Proof.
  split; [|split].
  - apply (proj1 (decode_token_failure_kinds config (calm 300) "garbage")).
    reflexivity.
  - destruct (decode_token_failure_kinds config (calm 300) forged_token)
      as (_ & _ & Hsig & _).
    apply (Hsig (signed "HS256" "guess" (claims 2 "admin" (JInt 100)))).
    + reflexivity.
    + vm_compute. discriminate.
  - destruct (decode_token_failure_kinds config (calm 300) stale_token)
      as (_ & _ & _ & Hexp & _).
    apply (Hexp (signed "HS256" secret (claims 1 "member" (JInt 100))) 100);
      try reflexivity.
Defined.

Lemma inactive_user_rejected_before_issuance_witness :
  let run := login config (calm 300) alice_login peer world_alice_disabled in
  fst run = HTTPException 401 "Account disabled"
  /\ http_status (fst run) = 401
  /\ issued (snd run) = issued world_alice_disabled
  /\ snd run = world_alice_disabled.
Proof.
  eapply (inactive_user_rejected_before_issuance config (calm 300) alice_login
            peer world_alice_disabled); reflexivity.
Defined.

Lemma login_failures_indistinguishable_witness :
  fst (login config (calm 300) bob_login peer world_with_alice)
  = fst (login config (calm 301) alice_wrong_password peer world_with_alice)
  /\ fst (login config (calm 300) bob_login peer world_with_alice)
     = HTTPException 401 "Invalid credentials"
  /\ snd (login config (calm 300) bob_login peer world_with_alice)
     = world_with_alice
  /\ snd (login config (calm 301) alice_wrong_password peer world_with_alice)
     = world_with_alice.
Proof.
  eapply (login_failures_indistinguishable config (calm 300) (calm 301)
            bob_login alice_wrong_password peer peer
            world_with_alice world_with_alice); reflexivity.
Defined.

Lemma register_then_login_same_user_id_witness :
  exists r1 w1 r2 w2 p1 p2,
    register config (calm 100) alice peer empty_world = (Return r1, w1)
    /\ login config (calm 300) alice_login peer w1 = (Return r2, w2)
    /\ decode_token config (calm 400) (access_token r1) = Return p1
    /\ decode_token config (calm 400) (access_token r2) = Return p2
    /\ dict_get "user_id" p1 = Some (JInt 1)
    /\ dict_get "user_id" p2 = dict_get "user_id" p1.
Proof.
  apply (register_then_login_same_user_id config (calm 100) (calm 300) (calm 400)
           alice peer peer empty_world "10.0.0.7" "10.0.0.7");
    try reflexivity.
  vm_compute. split; [discriminate | reflexivity].
Defined.

Lemma audit_write_failure_propagates_witness :
  (let run := search_properties (failing InsertActivity 300) austin peer
                (claims 1 "member" (JInt 86500)) empty_world in
   fst run = Uncaught SqliteError /\ http_status (fst run) = 500
   /\ activity_log (snd run) = activity_log empty_world)
  /\ (let user := claims 1 "member" (JInt 86500) in
      let buyers :=
        JObj [("buyers",
               JArr [JObj [("name", JStr "J. Doe"); ("purchase_count", JInt 1);
                           ("recent_properties",
                            JArr [JObj [("owner", JStr "J. Doe")]])]])] in
      fst (@search_buyers Cases.python (calm 300) Cases.buyers_in_austin peer
             user empty_world) = Return buyers
      /\ fst (@search_buyers Cases.python (failing InsertActivity 300)
                Cases.buyers_in_austin peer user empty_world)
         = Uncaught SqliteError
      /\ succeeded (fst (@get_comps Cases.python (calm 300) Cases.main_street
                           peer user empty_world)) = true
      /\ http_status (fst (@get_comps Cases.python (failing InsertActivity 300)
                             Cases.main_street peer user empty_world)) = 500).
Proof.
  destruct (audit_write_failure_propagates config Cases.python (calm 300))
    as (_ & _ & _ & _ & _ & _ & Hcomps & _ & Hbuyers & _).
  destruct (audit_write_failure_propagates config Cases.python
              (failing InsertActivity 300)) as [Hsearch _].
  split.
  - destruct (Hsearch austin peer (claims 1 "member" (JInt 86500)) empty_world
                (JInt 1) (SqlInt 1) "10.0.0.7" eq_refl eq_refl eq_refl)
      as (_ & Hfail & _).
    exact (Hfail eq_refl).
  - split; [reflexivity|]. split; [|split; [reflexivity|]].
    + refine (proj1 (Hbuyers Cases.buyers_in_austin peer
                       (claims 1 "member" (JInt 86500)) empty_world _)).
      reflexivity.
    + refine (proj2 (Hcomps Cases.main_street peer
                       (claims 1 "member" (JInt 86500)) empty_world _)).
      reflexivity.
Defined.

(** C6, counterexample: with the audit write failing, the property search
    that answers 200 otherwise answers 500, after the provider has been
    called. *)
Lemma audit_failure_changes_status :
  http_status (fst (search_properties_route config (calm 300) member_token
                      austin peer empty_world)) = 200
  /\ http_status (fst (search_properties_route config
                         (with_fault InsertActivity (calm 300)) member_token
                         austin peer empty_world)) = 500
  /\ ~ audit_failure_is_swallowed config.
Proof.
  split; [reflexivity|]. split; [reflexivity|].
  intros H.
  specialize (H (calm 300) member_token austin peer empty_world).
  vm_compute in H. discriminate H.
Qed.

Lemma last_login_update_precedes_issuance_witness :
  let run := login config (failing UpdateLastLogin 300) alice_login peer
               world_with_alice in
  run = (Uncaught SqliteError, world_with_alice)
  /\ http_status (fst run) = 500
  /\ issued (snd run) = issued world_with_alice.
Proof.
  refine (proj1 (last_login_update_precedes_issuance config
                   (failing UpdateLastLogin 300) alice_login peer
                   world_with_alice _ eq_refl eq_refl eq_refl eq_refl) eq_refl).
Defined.

(** C7, counterexample: the login that returns a token otherwise ends in
    an unhandled storage error when the last-login update fails, and
    issues nothing. *)
Lemma failed_last_login_update_blocks_login :
  succeeded (fst (login config (calm 300) alice_login peer world_with_alice))
  = true
  /\ login config (with_fault UpdateLastLogin (calm 300)) alice_login peer
       world_with_alice
     = (Uncaught SqliteError, world_with_alice)
  /\ ~ touch_login_is_best_effort config.
Proof.
  split; [reflexivity|]. split; [reflexivity|].
  intros H.
  specialize (H (calm 300) alice_login peer world_with_alice eq_refl).
  vm_compute in H. discriminate H.
Qed.

Lemma activity_listing_bounded_and_ordered_witness :
  map av_action (select_activity 2 Cases.alice_and_stranger) = ["export"; "login"]
  /\ Z.of_nat (List.length (select_activity 2 Cases.alice_and_stranger)) <= 2
  /\ map av_user_name (select_activity 2 Cases.alice_and_stranger)
     = [None; Some "Alice"]
  /\ map av_user_email (select_activity 2 Cases.alice_and_stranger)
     = [None; Some "alice@example.com"]
  /\ (forall v, In v (select_activity 2 Cases.alice_and_stranger) ->
                av_id v = 2 ->
                av_user_name v = Some "Alice"
                /\ av_user_email v = Some "alice@example.com")
  /\ (forall v, In v (select_activity 2 Cases.alice_and_stranger) ->
                av_id v = 3 ->
                av_user_name v = None /\ av_user_email v = None).
Proof.
  destruct (activity_listing_bounded_and_ordered Cases.alice_and_stranger 2)
    as (Hbound & _ & _ & Hjoin & Htwo & _).
  assert (Hlisting : select_activity 2 Cases.alice_and_stranger
                     = map (join_actor (users Cases.alice_and_stranger))
                           (rev (skipn 1 (activity_log Cases.alice_and_stranger)))).
  { match eval vm_compute in (activity_log Cases.alice_and_stranger) with
    | [?r1; ?r2; ?r3] => apply (Htwo [r1] r2 r3)
    end.
    - reflexivity.
    - intros a [<- | []]. reflexivity.
    - reflexivity. }
  split; [|split; [|split; [|split; [|split]]]].
  - rewrite Hlisting. reflexivity.
  - apply Hbound. discriminate.
  - rewrite Hlisting. reflexivity.
  - rewrite Hlisting. reflexivity.
  - intros v Hv Hid.
    destruct (Hjoin v Hv) as (a & Ha & Hsame & _ & _ & _ & _ & _ & Hfound & _).
    rewrite Hid in Hsame.
    destruct Ha as [<- | [<- | [<- | []]]]; try discriminate Hsame.
    match eval vm_compute in (users Cases.alice_and_stranger) with
    | [?u] => apply (Hfound u)
    end.
    + repeat constructor. intros [].
    + left. reflexivity.
    + reflexivity.
  - intros v Hv Hid.
    destruct (Hjoin v Hv) as (a & Ha & Hsame & _ & _ & _ & _ & _ & _ & Hmissing).
    rewrite Hid in Hsame.
    destruct Ha as [<- | [<- | [<- | []]]]; try discriminate Hsame.
    apply Hmissing. right. exists 9. split; [reflexivity|].
    intros u [<- | []]. discriminate.
Defined.

(** C8, counterexample: of three rows logged within the same second, a
    listing with limit 2 gives the first two in the order of insertion,
    not the last two; and a negative limit lists all three. *)
Lemma same_second_rows_listed_oldest_first :
  map a_action (activity_log busy_second) = ["first"; "second"; "third"]
  /\ map av_action (select_activity 2 busy_second) = ["first"; "second"]
  /\ map av_action (select_activity (-1) busy_second)
     = ["first"; "second"; "third"]
  /\ ~ listing_newest_first.
Proof.
  split; [reflexivity|]. split; [reflexivity|]. split; [reflexivity|].
  intros H. destruct (H busy_second 2) as [_ Htwo].
  match eval vm_compute in (activity_log busy_second) with
  | [?r1; ?r2; ?r3] => specialize (Htwo [] r1 r2 r3 eq_refl)
  end.
  vm_compute in Htwo. discriminate Htwo.
Qed.

Lemma ai_query_echoes_requested_model_witness :
  let run := ai_query config (calm 300) ask peer
               (claims 1 "member" (JInt 86500)) empty_world in
  (exists r, fst run = Return r
             /\ py_get r "model" JNull = Return (JStr "gpt-3.5-turbo"))
  /\ map payload_model (upstream_calls (snd run)) = [Some (JStr "gpt-4o")].
Proof.
  destruct (ai_query_echoes_requested_model config (calm 300) ask peer
              (claims 1 "member" (JInt 86500)) empty_world)
    as (Hecho & Hsent & _).
  split.
  - eexists. split; [reflexivity|].
    apply (Hecho _ eq_refl).
  - cbv zeta. rewrite Hsent. reflexivity.
Defined.

(** C4, at the failing input: with a password holding a NUL character,
    on which the password check raises, the login with an unknown email
    ends in 401 "Invalid credentials" and the login with a registered
    email in an unhandled error, status 500: the two wrong logins do not
    end the same way, and the caller learns which email is registered. *)
Lemma raising_password_check_tells_accounts_apart :
  fst (@login Cases.strict config (calm 300) Cases.bob_with_nul peer
         world_with_alice)
  = HTTPException 401 "Invalid credentials"
  /\ fst (@login Cases.strict config (calm 300) Cases.alice_with_nul peer
            world_with_alice)
     = Uncaught ValueError
  /\ http_status (fst (@login Cases.strict config (calm 300)
                         Cases.alice_with_nul peer world_with_alice)) = 500
  /\ ~ @login_is_not_enumerable Cases.strict config.
Proof.
  split; [reflexivity|]. split; [reflexivity|]. split; [reflexivity|].
  intros H.
  specialize (H (calm 300) (calm 300) Cases.bob_with_nul Cases.alice_with_nul
                peer peer world_with_alice world_with_alice
                (registered_row (calm 100) alice empty_world)).
  assert (Hne : fst (@login Cases.strict config (calm 300) Cases.bob_with_nul
                       peer world_with_alice)
                <> fst (@login Cases.strict config (calm 300) Cases.alice_with_nul
                          peer world_with_alice))
    by (vm_compute; discriminate).
  apply Hne, H; try reflexivity.
  vm_compute. discriminate.
Qed.

End Runs.

(** * Further properties of the handlers *)

Section MoreProperties.

Context {L : Libraries}.
Variable config : Config.

(** ** The guard, from the side of the caller it lets through *)

Lemma require_role_world allowed_roles E credentials w :
  snd (require_role config allowed_roles E credentials w) = w.
Proof.
  assert (K : keeps (fun w => w) (require_role config allowed_roles E credentials))
    by (unfold require_role, get_current_user; frame).
  exact (K w).
Qed.

(** X1: [require_role] hands the handler the decoded payload, unchanged,
    exactly when the token validates and carries a role that is one of
    the allowed strings; a valid token without a [role] entry ends in an
    unhandled [KeyError] (status 500), not in 403; and the guard never
    changes the world. *)
Theorem require_role_admits_exactly :
  forall (allowed_roles : list string) (E : env) (credentials : string)
         (w : world),
    let run := require_role config allowed_roles E credentials w in
    (forall user,
       fst run = Return user <->
       decode_token config E credentials = Return user
       /\ exists role, dict_get "role" user = Some role
                       /\ in_strs role allowed_roles = true)
    /\ (forall user,
          decode_token config E credentials = Return user ->
          dict_get "role" user = None ->
          fst run = Uncaught KeyError /\ http_status (fst run) = 500)
    /\ snd run = w.
Proof.
  intros allowed_roles E credentials w run. subst run.
  split; [|split; [|apply require_role_world]].
  - intros user.
    unfold require_role, get_current_user, bind, lift, raise_http, ret, py_item.
    destruct (decode_token config E credentials) as [u | s d | e]; simpl.
    + destruct (dict_get "role" u) as [role|] eqn:Hrole; simpl.
      * destruct (in_strs role allowed_roles) eqn:Hin; simpl.
        -- split.
           ++ intros H. inversion H. subst u. split; [reflexivity|].
              exists role. split; assumption.
           ++ intros [H _]. exact H.
        -- split; [discriminate|].
           intros [H (role' & Hr & Hin')]. inversion H. subst u.
           rewrite Hrole in Hr. inversion Hr. subst role'. congruence.
      * split; [discriminate|].
        intros [H (role' & Hr & _)]. inversion H. subst u. congruence.
    + split; [discriminate | intros [H _]; discriminate].
    + split; [discriminate | intros [H _]; discriminate].
  - intros user Hdec Hnone.
    unfold require_role, get_current_user, bind, lift, py_item.
    rewrite Hdec. simpl. rewrite Hnone. split; reflexivity.
Qed.

(** ** The life of a token *)

(** X2: a token made by [create_token] at clock [t] is accepted by
    [decode_token], which gives back its four claims, at every clock
    before [t + 86400] seconds, and is rejected as expired at every clock
    after [t + 86400]. *)
Theorem token_valid_for_24_hours :
  forall (E0 E : env) (user_id : Z) (email role token : string) (w : world),
    jwt_reads_back (token_payload (utcnow E0) user_id email role)
                   (JWT_SECRET config) ->
    fst (create_token config E0 user_id email role w) = Return token ->
    (utcnow E < utcnow E0 + 86400 ->
       decode_token config E token
       = Return [("user_id", JInt user_id); ("email", JStr email);
                 ("role", JStr role); ("exp", JInt (utcnow E0 + 86400))])
    /\ (utcnow E0 + 86400 < utcnow E ->
        decode_token config E token = HTTPException 401 "Token expired").
Proof.
  intros E0 E user_id email role token w Hback Hmade.
  unfold create_token, bind, modify, ret in Hmade. simpl in Hmade.
  inversion Hmade as [Htok]. clear Hmade.
  split.
  - intros Hfresh.
    apply (decode_fresh_token config E (utcnow E0) user_id email role Hback Hfresh).
  - intros Hlate. unfold decode_token, jwt_decode.
    rewrite Hback. cbn [jws_alg jws_input jws_signature jws_payload existsb].
    rewrite !String.eqb_refl. cbn [orb negb].
    cbn [token_payload dict_get String.eqb Ascii.eqb Bool.eqb].
    unfold JWT_EXPIRY_HOURS. change (24 * 3600) with 86400.
    destruct (Z.leb_spec (utcnow E0 + 86400) (utcnow E)); [reflexivity | lia].
Qed.

(** X3: a token made under one secret is rejected as invalid, at any
    clock, by a server whose secret gives the token's signing input a
    different MAC: changing the secret ends every session. *)
Theorem rotated_secret_rejects_token :
  forall (config' : Config) (E0 E : env) (user_id : Z)
         (email role token : string) (w : world),
    let payload := token_payload (utcnow E0) user_id email role in
    jwt_reads_back payload (JWT_SECRET config) ->
    fst (create_token config E0 user_id email role w) = Return token ->
    hmac_sha256 (JWT_SECRET config') (jws_signing_input JWT_ALGORITHM payload)
    <> hmac_sha256 (JWT_SECRET config) (jws_signing_input JWT_ALGORITHM payload) ->
    decode_token config' E token = HTTPException 401 "Invalid token".
Proof.
  intros config' E0 E user_id email role token w payload Hback Hmade Hmac.
  unfold create_token, bind, modify, ret in Hmade. simpl in Hmade.
  inversion Hmade as [Htok]. clear Hmade.
  unfold decode_token, jwt_decode. fold payload. rewrite Hback.
  cbn [jws_alg jws_input jws_signature jws_payload existsb].
  rewrite String.eqb_refl. cbn [orb negb].
  destruct (String.eqb_spec
              (hmac_sha256 (JWT_SECRET config')
                 (jws_signing_input JWT_ALGORITHM payload))
              (hmac_sha256 (JWT_SECRET config)
                 (jws_signing_input JWT_ALGORITHM payload)));
    [contradiction | reflexivity].
Qed.

(** ** What the handlers leave alone *)

Lemma record_call_keeps_users c : keeps users (record_call c).
Proof. intros w; reflexivity. Qed.
Lemma record_call_keeps_log c :
  keeps (fun w => (activity_log w, activity_seq w)) (record_call c).
Proof. intros w; reflexivity. Qed.
Lemma record_call_keeps_issued c : keeps issued (record_call c).
Proof. intros w; reflexivity. Qed.

Lemma re_post_keeps_users E endpoint payload :
  keeps users (re_post E endpoint payload).
Proof.
  unfold re_post. apply keeps_bind; [apply record_call_keeps_users|].
  intros _. destruct (realestate_reply E endpoint payload); apply keeps_ret.
Qed.
Lemma re_post_keeps_log E endpoint payload :
  keeps (fun w => (activity_log w, activity_seq w)) (re_post E endpoint payload).
Proof.
  unfold re_post. apply keeps_bind; [apply record_call_keeps_log|].
  intros _. destruct (realestate_reply E endpoint payload); apply keeps_ret.
Qed.
Lemma re_post_keeps_issued E endpoint payload :
  keeps issued (re_post E endpoint payload).
Proof.
  unfold re_post. apply keeps_bind; [apply record_call_keeps_issued|].
  intros _. destruct (realestate_reply E endpoint payload); apply keeps_ret.
Qed.

Lemma query_openai_keeps_users E prompt context :
  keeps users (query_openai config E prompt context).
Proof.
  unfold query_openai. destruct (String.eqb _ _); [apply keeps_ret|].
  apply keeps_bind; [apply record_call_keeps_users|].
  intros _. destruct (openai_reply E _); [apply keeps_lift | apply keeps_raise].
Qed.
Lemma query_openai_keeps_log E prompt context :
  keeps (fun w => (activity_log w, activity_seq w))
        (query_openai config E prompt context).
Proof.
  unfold query_openai. destruct (String.eqb _ _); [apply keeps_ret|].
  apply keeps_bind; [apply record_call_keeps_log|].
  intros _. destruct (openai_reply E _); [apply keeps_lift | apply keeps_raise].
Qed.

Lemma create_token_keeps_users E user_id email role :
  keeps users (create_token config E user_id email role).
Proof. intros w; reflexivity. Qed.
Lemma create_token_keeps_log E user_id email role :
  keeps (fun w => (activity_log w, activity_seq w))
        (create_token config E user_id email role).
Proof. intros w; reflexivity. Qed.
Lemma create_token_keeps_calls E user_id email role :
  keeps upstream_calls (create_token config E user_id email role).
Proof. intros w; reflexivity. Qed.

Lemma insert_user_keeps_log E email password_hash name role :
  keeps (fun w => (activity_log w, activity_seq w))
        (insert_user E email password_hash name role).
Proof.
  intros w. unfold insert_user, db_exec.
  destruct (db_fault E InsertUser); reflexivity.
Qed.

Lemma touch_login_keeps_log_state E id :
  keeps (fun w => (activity_log w, activity_seq w)) (touch_login E id).
Proof.
  intros w. unfold touch_login, db_exec.
  destruct (db_fault E UpdateLastLogin); reflexivity.
Qed.

End MoreProperties.

#[export] Hint Resolve record_call_keeps_users record_call_keeps_log
  record_call_keeps_issued re_post_keeps_users re_post_keeps_log
  re_post_keeps_issued query_openai_keeps_users query_openai_keeps_log
  create_token_keeps_users create_token_keeps_log create_token_keeps_calls
  insert_user_keeps_log touch_login_keeps_log_state : frame.

Section Stores.

Context {L : Libraries}.
Variable config : Config.

(** ** The users table *)

Lemma register_select_fault E user request w :
  db_fault E SelectUserByEmail = true ->
  register config E user request w = (Uncaught SqliteError, w).
Proof. intros H. unfold register, db_exec. rewrite H. reflexivity. Qed.

Lemma register_duplicate E user request w u :
  db_fault E SelectUserByEmail = false ->
  find_user_by_email (uc_email user) w = Some u ->
  register config E user request w
  = (HTTPException 400 "Email already registered", w).
Proof.
  intros Hsel Hfind. unfold register, db_exec. rewrite Hsel.
  unfold bind at 1. unfold ret at 1.
  unfold bind at 1. unfold gets at 1. rewrite Hfind. reflexivity.
Qed.

Lemma register_insert_fault E user request w :
  db_fault E SelectUserByEmail = false ->
  find_user_by_email (uc_email user) w = None ->
  db_fault E InsertUser = true ->
  register config E user request w = (Uncaught SqliteError, w).
Proof.
  intros Hsel Hfind Hins. unfold register, insert_user, db_exec.
  rewrite Hsel, Hins.
  unfold bind at 1. unfold ret at 1.
  unfold bind at 1. unfold gets at 1. rewrite Hfind. reflexivity.
Qed.

Lemma register_committed E user request w :
  db_fault E SelectUserByEmail = false ->
  find_user_by_email (uc_email user) w = None ->
  db_fault E InsertUser = false ->
  register config E user request w
  = register_rest config E user request
      (next_rowid (users_seq w) (map u_id (users w)))
      (with_registered E user w).
Proof.
  intros Hsel Hfind Hins. unfold register, insert_user, db_exec.
  rewrite Hsel, Hins.
  unfold bind at 1. unfold ret at 1.
  unfold bind at 1. unfold gets at 1. rewrite Hfind. reflexivity.
Qed.

Lemma register_rest_keeps_users E user request user_id :
  keeps users (register_rest config E user request user_id).
Proof. unfold register_rest. frame. Qed.

(** [register] leaves the table alone or appends one row, for an email
    the table did not hold. *)
Lemma register_users E user request w :
  users (snd (register config E user request w)) = users w
  \/ (find_user_by_email (uc_email user) w = None
      /\ users (snd (register config E user request w))
         = users w ++ [registered_row E user w]).
Proof.
  destruct (db_fault E SelectUserByEmail) eqn:Hsel.
  { left. rewrite (register_select_fault E user request w Hsel). reflexivity. }
  destruct (find_user_by_email (uc_email user) w) as [u|] eqn:Hfind.
  { left. rewrite (register_duplicate E user request w u Hsel Hfind). reflexivity. }
  destruct (db_fault E InsertUser) eqn:Hins.
  { left. rewrite (register_insert_fault E user request w Hsel Hfind Hins).
    reflexivity. }
  right. split; [reflexivity|].
  rewrite (register_committed E user request w Hsel Hfind Hins).
  rewrite register_rest_keeps_users. reflexivity.
Qed.

(** A [register] that returns has committed its row. *)
Lemma register_returns_committed E user request w r w' :
  register config E user request w = (Return r, w') ->
  find_user_by_email (uc_email user) w = None
  /\ users w' = users w ++ [registered_row E user w].
Proof.
  intros H.
  destruct (db_fault E SelectUserByEmail) eqn:Hsel.
  { rewrite (register_select_fault E user request w Hsel) in H. discriminate. }
  destruct (find_user_by_email (uc_email user) w) as [u|] eqn:Hfind.
  { rewrite (register_duplicate E user request w u Hsel Hfind) in H. discriminate. }
  destruct (db_fault E InsertUser) eqn:Hins.
  { rewrite (register_insert_fault E user request w Hsel Hfind Hins) in H.
    discriminate. }
  split; [reflexivity|].
  rewrite (register_committed E user request w Hsel Hfind Hins) in H.
  pose proof (register_rest_keeps_users E user request
                (next_rowid (users_seq w) (map u_id (users w)))
                (with_registered E user w)) as K.
  rewrite H in K. exact K.
Qed.

Lemma find_app_found {A} (f : A -> bool) (l : list A) (x : A) :
  f x = true -> exists y, find f (l ++ [x]) = Some y /\ f y = true.
Proof.
  intros Hx. induction l as [|a l IH]; simpl.
  - rewrite Hx. exists x. split; [reflexivity | exact Hx].
  - destruct (f a) eqn:Ha; [exists a; split; [reflexivity | exact Ha] | exact IH].
Qed.

(** X4: once [register] has returned for an email, every further
    [register] for that email, whatever password, name or role it
    carries, is answered 400 "Email already registered" and changes
    nothing. *)
Theorem second_registration_rejected :
  forall (E1 E2 : env) (user user' : UserCreate) (request1 request2 : Request)
         (w w1 : world) (r1 : TokenResponse),
    register config E1 user request1 w = (Return r1, w1) ->
    uc_email user' = uc_email user ->
    db_fault E2 SelectUserByEmail = false ->
    register config E2 user' request2 w1
    = (HTTPException 400 "Email already registered", w1).
Proof.
  intros E1 E2 user user' request1 request2 w w1 r1 Hreg Hemail Hsel.
  destruct (register_returns_committed E1 user request1 w r1 w1 Hreg)
    as [_ Husers].
  destruct (find_app_found (fun u => String.eqb (u_email u) (uc_email user'))
              (users w) (registered_row E1 user w)) as (y & Hy & _).
  { simpl. rewrite Hemail. apply String.eqb_refl. }
  apply (register_duplicate E2 user' request2 w1 y Hsel).
  unfold find_user_by_email. rewrite Husers. exact Hy.
Qed.

Lemma find_none_not_in_emails email (l : list user_row) :
  find (fun u => String.eqb (u_email u) email) l = None ->
  ~ In email (map u_email l).
Proof.
  induction l as [|a l IH]; simpl; [tauto|].
  destruct (String.eqb_spec (u_email a) email) as [|Hne]; [discriminate|].
  intros H [Heq | Hin]; [contradiction | exact (IH H Hin)].
Qed.

Lemma fold_max_ge seq (ids : list Z) :
  seq <= fold_right Z.max seq ids
  /\ forall x, In x ids -> x <= fold_right Z.max seq ids.
Proof.
  induction ids as [|a ids [IH1 IH2]]; simpl.
  - split; [lia | tauto].
  - split; [lia|]. intros x [<- | Hx]; [lia|]. specialize (IH2 x Hx). lia.
Qed.

(** The next rowid is above every id of the table and above the counter. *)
Lemma next_rowid_above seq ids :
  seq < next_rowid seq ids /\ forall x, In x ids -> x < next_rowid seq ids.
Proof.
  unfold next_rowid. destruct (fold_max_ge seq ids) as [H1 H2].
  split; [lia|]. intros x Hx. specialize (H2 x Hx). lia.
Qed.

Lemma NoDup_snoc {A} (l : list A) (x : A) :
  NoDup l -> ~ In x l -> NoDup (l ++ [x]).
Proof.
  intros Hl Hx. apply (Permutation_NoDup (Permutation_cons_append l x)).
  constructor; assumption.
Qed.

Lemma touch_login_keeps_keys E id :
  keeps (fun w => (map u_email (users w), map u_id (users w))) (touch_login E id).
Proof.
  intros w. unfold touch_login, db_exec.
  destruct (db_fault E UpdateLastLogin); [reflexivity|].
  unfold bind, ret, modify. simpl. rewrite !map_map. f_equal.
  - apply map_ext. intros u. destruct (u_id u =? id); reflexivity.
  - apply map_ext. intros u. destruct (u_id u =? id); reflexivity.
Qed.

Lemma login_keeps_keys E credentials request :
  keeps (fun w => (map u_email (users w), map u_id (users w)))
        (login config E credentials request).
Proof.
  assert (Hc : forall id email role,
    keeps (fun w => (map u_email (users w), map u_id (users w)))
          (create_token config E id email role)) by (intros; intros w; reflexivity).
  assert (Hl : forall uid action endpoint details ip,
    keeps (fun w => (map u_email (users w), map u_id (users w)))
          (log_activity E uid action endpoint details ip)).
  { intros. intros w.
    pose proof (log_activity_keeps_users E uid action endpoint details ip w) as K.
    simpl in *. rewrite K. reflexivity. }
  unfold login.
  repeat first
    [ progress intros
    | solve [auto with frame]
    | apply touch_login_keeps_keys
    | apply Hc
    | apply Hl
    | match goal with
      | |- keeps _ (if ?b then _ else _) => destruct b
      | |- keeps _ (match ?x with _ => _ end) => destruct x
      end
    | apply keeps_bind ].
Qed.

(** X5: [register] and [login] keep the users table well formed: if no
    email and no id occurs twice before the request, none does after it,
    however the request ends. *)
Theorem users_table_stays_well_formed :
  forall (E : env) (w : world),
    users_wf w ->
    (forall user request, users_wf (snd (register config E user request w)))
    /\ (forall credentials request,
          users_wf (snd (login config E credentials request w))).
Proof.
  intros E w [Hemails Hids]. split.
  - intros user request.
    destruct (register_users E user request w) as [Hsame | [Hnone Hrow]];
      unfold users_wf.
    + rewrite Hsame. split; assumption.
    + rewrite Hrow, !map_app. simpl. split.
      * apply NoDup_snoc; [exact Hemails|].
        apply find_none_not_in_emails. exact Hnone.
      * apply NoDup_snoc; [exact Hids|].
        intros Hin.
        destruct (next_rowid_above (users_seq w) (map u_id (users w))) as [_ H].
        specialize (H _ Hin). lia.
  - intros credentials request.
    pose proof (login_keeps_keys E credentials request w) as K.
    simpl in K. inversion K as [[K1 K2]].
    unfold users_wf. rewrite K1, K2. split; assumption.
Qed.

(** X6: [register] is not atomic.  For a password the hash library
    accepts (it verifies against its own hash), when the row is committed
    and the request then fails (the peer address is unknown or the audit
    write fails), the caller gets status 500 and no token, yet the
    account exists: the email is found in the store, and registering it
    again is answered 400. *)
Theorem failed_register_leaves_account :
  forall (E : env) (user : UserCreate) (request : Request) (w : world),
    bcrypt_verify (uc_password user)
                  (bcrypt_hash (salt E) (uc_password user)) = Some true ->
    db_fault E SelectUserByEmail = false ->
    find_user_by_email (uc_email user) w = None ->
    db_fault E InsertUser = false ->
    client request = None \/ db_fault E InsertActivity = true ->
    let run := register config E user request w in
    http_status (fst run) = 500
    /\ find_user_by_email (uc_email user) (snd run)
       = Some (registered_row E user w)
    /\ (forall E2 request2,
          db_fault E2 SelectUserByEmail = false ->
          register config E2 user request2 (snd run)
          = (HTTPException 400 "Email already registered", snd run)).
Proof.
  intros E user request w _ Hsel Hnone Hins Hfail run.
  assert (Husers : users (snd run) = users w ++ [registered_row E user w]).
  { destruct (register_users E user request w) as [Hsame | [_ Hrow]];
      [|exact Hrow].
    exfalso. subst run.
    rewrite (register_committed E user request w Hsel Hnone Hins) in Hsame.
    rewrite register_rest_keeps_users in Hsame. simpl in Hsame.
    apply (f_equal (@List.length user_row)) in Hsame.
    rewrite length_app in Hsame. simpl in Hsame. lia. }
  assert (Hfound : find_user_by_email (uc_email user) (snd run)
                   = Some (registered_row E user w)).
  { unfold find_user_by_email in *. rewrite Husers.
    rewrite (find_app_none _ _ _ Hnone). simpl.
    rewrite String.eqb_refl. reflexivity. }
  split; [|split; [exact Hfound|]].
  - subst run. rewrite (register_committed E user request w Hsel Hnone Hins).
    unfold register_rest, create_token, log_activity, db_exec, client_host.
    destruct Hfail as [Hc | Hf].
    + rewrite Hc. reflexivity.
    + rewrite Hf. unfold bind, modify, ret, lift, raise. simpl.
      destruct (client request); [|reflexivity].
      repeat match goal with
             | |- context [if ?b then _ else _] => destruct b
             end; reflexivity.
  - intros E2 request2 Hsel2.
    apply (register_duplicate E2 user request2 (snd run) _ Hsel2 Hfound).
Qed.

End Stores.

Section AuditTrail.

Context {L : Libraries}.
Variable config : Config.

(** ** The activity log as the handlers leave it *)

Lemma logs_bind {A B} E (m : M A) (f : A -> M B) :
  keeps (fun w => (activity_log w, activity_seq w)) m ->
  (forall a, logs_iff_returns E (f a)) ->
  logs_iff_returns E (bind m f).
Proof.
  intros Hm Hf w. unfold bind. specialize (Hm w).
  destruct (m w) as [[a | s d | e] w1]; simpl in *;
    pose proof (f_equal fst Hm) as Hlog; pose proof (f_equal snd Hm) as Hseq;
    simpl in Hlog, Hseq; try exact Hlog.
  specialize (Hf a w1). unfold logged_by in *.
  rewrite Hlog, Hseq in Hf. exact Hf.
Qed.

Lemma logs_raise_http {A} E s d : logs_iff_returns E (@raise_http A s d).
Proof. intros w; reflexivity. Qed.

(** The last two steps of every logged handler. *)
Lemma logs_log_then_ret {A} E uid action endpoint details ip (x : A) :
  logs_iff_returns E
    (log_activity E uid action endpoint details ip ;;; ret x).
Proof.
  intros w. unfold log_activity, db_exec, bind, lift, raise, ret, modify.
  destruct (sql_bind uid) as [v | s d | e]; simpl; try reflexivity.
  destruct (db_fault E InsertActivity); simpl; [reflexivity|].
  eexists. split; [reflexivity|]. split; reflexivity.
Qed.

Ltac audit :=
  repeat first
    [ progress intros
    | solve [apply logs_log_then_ret]
    | solve [apply logs_raise_http]
    | match goal with
      | |- logs_iff_returns _ (if ?b then _ else _) => destruct b
      | |- logs_iff_returns _ (match ?x with _ => _ end) => destruct x
      end
    | apply logs_bind; [solve [auto with frame] |] ].

Lemma search_properties_logs E req request user :
  logs_iff_returns E (search_properties E req request user).
Proof. unfold search_properties, re_property_search. audit. Qed.

Lemma skip_trace_logs E req request user :
  logs_iff_returns E (skip_trace E req request user).
Proof. unfold skip_trace, re_autocomplete, re_skip_trace. audit. Qed.

Lemma lookup_property_logs E req request user :
  logs_iff_returns E (lookup_property E req request user).
Proof. unfold lookup_property, re_autocomplete, re_property_detail. audit. Qed.

Lemma get_comps_logs {P : Python} E req request user :
  logs_iff_returns E (get_comps E req request user).
Proof. unfold get_comps, re_autocomplete, re_property_comps. audit. Qed.

Lemma search_buyers_logs {P : Python} E req request user :
  logs_iff_returns E (search_buyers E req request user).
Proof. unfold search_buyers, re_property_search. cbv zeta. audit. Qed.

Lemma ai_query_logs E req request user :
  logs_iff_returns E (ai_query config E req request user).
Proof. unfold ai_query. cbv zeta. audit. Qed.

Lemma login_logs E credentials request :
  logs_iff_returns E (login config E credentials request).
Proof. unfold login. audit. Qed.

Lemma register_logs E user request :
  logs_iff_returns E (register config E user request).
Proof. unfold register. cbv zeta. audit. Qed.

(** X7: each logged operation (register, login, property search, property
    lookup, skip trace, AI query) writes one row to the activity log
    exactly when it returns a result, and none when it ends in an error;
    the rows already there are kept as they are, the new row is appended
    with the next id and the clock of the request as its timestamp. *)
Theorem audit_row_iff_success :
  forall (E : env),
    (forall user request, logs_iff_returns E (register config E user request))
    /\ (forall credentials request,
          logs_iff_returns E (login config E credentials request))
    /\ (forall req request user,
          logs_iff_returns E (search_properties E req request user))
    /\ (forall req request user,
          logs_iff_returns E (lookup_property E req request user))
    /\ (forall req request user,
          logs_iff_returns E (skip_trace E req request user))
    /\ (forall req request user,
          logs_iff_returns E (ai_query config E req request user)).
Proof.
  intros E. repeat split; intros.
  - apply register_logs.
  - apply login_logs.
  - apply search_properties_logs.
  - apply lookup_property_logs.
  - apply skip_trace_logs.
  - apply ai_query_logs.
Qed.

Lemma sorted_snoc (l : list Z) (x : Z) :
  StronglySorted Z.lt l -> (forall y, In y l -> y < x) ->
  StronglySorted Z.lt (l ++ [x]).
Proof.
  induction 1 as [|a l Hs IH Ha]; intros Hx; simpl.
  - constructor; constructor.
  - constructor.
    + apply IH. intros y Hy. apply Hx. right. exact Hy.
    + rewrite Forall_forall in *. intros y Hy.
      apply in_app_or in Hy. destruct Hy as [Hy | [<- | []]].
      * apply Ha, Hy.
      * apply Hx. left. reflexivity.
Qed.

Lemma logs_keep_ids_increasing {A} E (m : M A) w :
  logs_iff_returns E m ->
  log_ids_increasing w -> log_ids_increasing (snd (m w)).
Proof.
  intros Hm Hw. specialize (Hm w). unfold log_ids_increasing in *.
  destruct (succeeded (fst (m w))).
  - destruct Hm as (row & Hlog & Hid & _). rewrite Hlog, map_app. simpl.
    apply sorted_snoc; [exact Hw|].
    intros y Hy. rewrite Hid.
    apply (proj2 (next_rowid_above _ _) y Hy).
  - rewrite Hm. exact Hw.
Qed.

(** X8: the ids of the activity log stay strictly increasing along the
    table through every logged operation, however it ends: an id is
    never reused, and the order of the ids is the order of insertion. *)
Theorem activity_ids_stay_increasing :
  forall (P : Python) (E : env) (w : world),
    log_ids_increasing w ->
    (forall user request,
       log_ids_increasing (snd (register config E user request w)))
    /\ (forall credentials request,
          log_ids_increasing (snd (login config E credentials request w)))
    /\ (forall req request user,
          log_ids_increasing (snd (search_properties E req request user w)))
    /\ (forall req request user,
          log_ids_increasing (snd (lookup_property E req request user w)))
    /\ (forall req request user,
          log_ids_increasing (snd (skip_trace E req request user w)))
    /\ (forall req request user,
          log_ids_increasing (snd (ai_query config E req request user w)))
    /\ (forall req request user,
          log_ids_increasing (snd (get_comps E req request user w)))
    /\ (forall req request user,
          log_ids_increasing (snd (search_buyers E req request user w))).
Proof.
  intros P E w Hw. repeat split; intros;
    apply (logs_keep_ids_increasing E); try exact Hw.
  - apply register_logs.
  - apply login_logs.
  - apply search_properties_logs.
  - apply lookup_property_logs.
  - apply skip_trace_logs.
  - apply ai_query_logs.
  - apply get_comps_logs.
  - apply search_buyers_logs.
Qed.

End AuditTrail.

Section Providers.

Variable config : Config.

(** ** When a provider has nothing, or fails *)

(** X9: when the provider has no candidate for the address (the
    AutoComplete call failed, or its reply has no [data] or a falsy one),
    [skip_trace] and [lookup_property] answer 404 "Address not found"
    after that one call: no second call is made and no activity row is
    written. *)
Theorem unknown_address_is_404 :
  forall (E : env) (req : AddressLookupRequest) (request : Request)
         (user : dict) (w : world),
    no_candidate E (address req) ->
    let w' := after_call "AutoComplete" (JObj [("search", JStr (address req))]) w in
    skip_trace E req request user w
    = (HTTPException 404 "Address not found", w')
    /\ lookup_property E req request user w
       = (HTTPException 404 "Address not found", w')
    /\ activity_log w' = activity_log w.
Proof.
  intros E req request user w Hno w'. subst w'.
  unfold skip_trace, lookup_property, re_autocomplete, re_post, record_call.
  destruct Hno as [(msg & Hreply) | (o & Hreply & Hfalsy)].
  - rewrite Hreply. repeat split; reflexivity.
  - rewrite Hreply.
    unfold bind, ret, lift, modify, raise_http, py_get. simpl.
    rewrite Hfalsy. repeat split; reflexivity.
Qed.

(** X10: a failure of the real-estate provider on the call that produces
    the result does not fail the request.  [search_properties] returns
    the value [{"error": msg, "data": []}] with status 200 and logs the
    search; [skip_trace], given a candidate by AutoComplete, returns the
    same value when its SkipTrace call fails, and logs the skip trace. *)
Theorem provider_failure_is_returned_as_value :
  forall (E : env) (request : Request) (user : dict) (w : world)
         (uid : json) (v : sqlval) (ip msg : string),
    dict_get "user_id" user = Some uid ->
    sql_bind uid = Return v ->
    client request = Some ip ->
    db_fault E InsertActivity = false ->
    let failed := JObj [("error", JStr msg); ("data", JArr [])] in
    (forall req,
       realestate_reply E "PropertySearch"
         (JObj [("search", JArr (search_filters req));
                ("size", opt_int (max_results req))]) = HttpFailed msg ->
       let run := search_properties E req request user w in
       fst run = Return failed /\ http_status (fst run) = 200
       /\ exists row, activity_log (snd run) = activity_log w ++ [row]
                      /\ a_action row = "property_search")
    /\ (forall req o candidate rest address_id,
          realestate_reply E "AutoComplete" (JObj [("search", JStr (address req))])
          = HttpJson (JObj o) ->
          dict_get "data" o = Some (JArr (JObj candidate :: rest)) ->
          address_id = match dict_get "address_id" candidate with
                       | Some a => a | None => JNull end ->
          realestate_reply E "SkipTrace" (JObj [("address_id", address_id)])
          = HttpFailed msg ->
          let run := skip_trace E req request user w in
          fst run = Return failed /\ http_status (fst run) = 200
          /\ exists row, activity_log (snd run) = activity_log w ++ [row]
                         /\ a_action row = "skip_trace").
Proof.
  intros E request user w uid v ip msg Huid Hbind Hip Hlog failed. subst failed.
  split.
  - intros req Hreply run. subst run.
    unfold search_properties, re_property_search, re_post, record_call,
      log_activity, db_exec, client_host, py_item.
    rewrite Hreply, Huid, Hip, Hlog.
    unfold bind, ret, lift, modify. simpl. rewrite Hbind. simpl.
    repeat split. eexists. split; reflexivity.
  - intros req o candidate rest address_id Hauto Hdata Haddr Hskip run. subst run.
    unfold skip_trace, re_autocomplete, re_skip_trace, re_post, record_call,
      log_activity, db_exec, client_host, py_item, py_get, py_first.
    rewrite Hauto, Huid, Hip, Hlog.
    unfold bind, ret, lift, modify, raise_http. simpl.
    rewrite Hdata. simpl. rewrite <- Haddr, Hskip. simpl. rewrite Hbind. simpl.
    repeat split. eexists. split; reflexivity.
Qed.

(** X11: a failure of the AI provider, unlike one of the real-estate
    provider, fails the request: with a key configured and the call
    failing, [ai_query] ends in an unhandled error (status 500) after the
    call was made, and writes no activity row. *)
Theorem ai_provider_failure_is_500 :
  forall (E : env) (req : AIQueryRequest) (request : Request) (user : dict)
         (w : world) (msg : string),
    OPENAI_API_KEY config <> "" ->
    let payload := openai_payload (query req)
                     (Some (context_or_default (context req))) in
    openai_reply E payload = HttpFailed msg ->
    let run := ai_query config E req request user w in
    fst run = Uncaught HttpxError
    /\ http_status (fst run) = 500
    /\ upstream_calls (snd run) = upstream_calls w ++ [OpenAICall payload]
    /\ activity_log (snd run) = activity_log w.
Proof.
  intros E req request user w msg Hkey payload Hreply run. subst run.
  unfold ai_query, query_openai, record_call. cbv zeta. fold payload.
  destruct (String.eqb_spec (OPENAI_API_KEY config) ""); [contradiction|].
  rewrite Hreply. repeat split; reflexivity.
Qed.

(** X12: what [ai_query] makes of the reply of the AI provider.  A reply
    object without [choices] gives the response "No response" with status
    200; a reply whose [choices] is the empty list ends the request in an
    unhandled [IndexError] (status 500) with no activity row. *)
Theorem ai_reply_without_choices :
  forall (E : env) (req : AIQueryRequest) (request : Request) (user : dict)
         (w : world) (o : dict),
    OPENAI_API_KEY config <> "" ->
    openai_reply E (openai_payload (query req)
                      (Some (context_or_default (context req))))
    = HttpJson (JObj o) ->
    let run := ai_query config E req request user w in
    (dict_get "choices" o = None ->
       forall uid v ip,
         dict_get "user_id" user = Some uid -> sql_bind uid = Return v ->
         client request = Some ip -> db_fault E InsertActivity = false ->
         fst run = Return (JObj [("response", JStr "No response");
                                 ("model", opt_str (model req))]))
    /\ (dict_get "choices" o = Some (JArr []) ->
        fst run = Uncaught IndexError /\ http_status (fst run) = 500
        /\ activity_log (snd run) = activity_log w).
Proof.
  intros E req request user w o Hkey Hreply run. subst run.
  unfold ai_query, query_openai, record_call. cbv zeta.
  destruct (String.eqb_spec (OPENAI_API_KEY config) ""); [contradiction|].
  rewrite Hreply. split.
  - intros Hnone uid v ip Huid Hbind Hip Hlog.
    unfold openai_content, py_get, log_activity, db_exec, client_host, py_item.
    rewrite Hnone, Huid, Hip, Hlog.
    unfold bind, ret, lift, modify. simpl. rewrite Hbind. reflexivity.
  - intros Hempty.
    unfold openai_content, py_get. rewrite Hempty.
    repeat split; reflexivity.
Qed.


End Providers.

Section Identity.

Context {L : Libraries}.
Variable config : Config.
Variable sqlite_integer : string -> option Z.

(** ** Who a token says you are *)

(** What a returning [register] has issued and stored. *)
Lemma register_rest_returns E user request uid w0 r w' :
  register_rest config E user request uid w0 = (Return r, w') ->
  r = {| access_token :=
           jwt_encode (token_payload (utcnow E) uid (uc_email user) (uc_role user))
                      (JWT_SECRET config) JWT_ALGORITHM;
         token_type := "bearer";
         user := {| ur_id := uid; ur_email := uc_email user;
                    ur_name := uc_name user; ur_role := uc_role user;
                    ur_is_active := true |} |}
  /\ exists v, sql_bind (JInt uid) = Return v.
Proof.
  unfold register_rest, create_token, log_activity, db_exec.
  unfold bind, ret, lift, modify, raise. cbv beta iota.
  destruct (client_host request); cbv beta iota; try discriminate.
  destruct (sql_bind (JInt uid)) as [v | |]; cbv beta iota; try discriminate.
  destruct (db_fault E InsertActivity); cbv beta iota; try discriminate.
  intros H. inversion H. split; [reflexivity | exists v; reflexivity].
Qed.

Lemma register_returns E user request w r w' :
  register config E user request w = (Return r, w') ->
  let uid := next_rowid (users_seq w) (map u_id (users w)) in
  r = {| access_token :=
           jwt_encode (token_payload (utcnow E) uid (uc_email user) (uc_role user))
                      (JWT_SECRET config) JWT_ALGORITHM;
         token_type := "bearer";
         user := {| ur_id := uid; ur_email := uc_email user;
                    ur_name := uc_name user; ur_role := uc_role user;
                    ur_is_active := true |} |}
  /\ sql_bind (JInt uid) = Return (SqlInt uid)
  /\ users w' = users w ++ [registered_row E user w].
Proof.
  intros H uid.
  destruct (register_returns_committed config E user request w r w' H)
    as [Hnone Husers].
  revert H.
  destruct (db_fault E SelectUserByEmail) eqn:Hsel.
  { rewrite (register_select_fault config E user request w Hsel). discriminate. }
  destruct (db_fault E InsertUser) eqn:Hins.
  { rewrite (register_insert_fault config E user request w Hsel Hnone Hins).
    discriminate. }
  rewrite (register_committed config E user request w Hsel Hnone Hins).
  fold uid. intros H.
  destruct (register_rest_returns E user request uid _ r w' H) as [Hr [v Hv]].
  split; [exact Hr|]. split; [|exact Husers].
  revert Hv. unfold sql_bind.
  destruct ((- 2 ^ 63 <=? uid) && (uid <? 2 ^ 63)); [reflexivity | discriminate].
Qed.

Lemma find_by_id_fresh (l : list user_row) seq :
  find (fun u => u_id u =? next_rowid seq (map u_id l)) l = None.
Proof.
  destruct (find _ l) as [u|] eqn:Hfind; [|reflexivity].
  apply find_some in Hfind. destruct Hfind as [Hin Heq].
  apply Z.eqb_eq in Heq.
  pose proof (proj2 (next_rowid_above seq (map u_id l)) (u_id u)
                (in_map u_id l u Hin)). lia.
Qed.

(** X14: the token [register] returns, presented to [/auth/me] before it
    expires, gives back the identity that was registered: the id of the
    new row, the email, name and role of the request, and an active
    account; the call changes nothing. *)
Theorem get_me_after_register :
  forall (E1 E2 : env) (account : UserCreate) (request : Request)
         (w w1 : world) (r1 : TokenResponse),
    register config E1 account request w = (Return r1, w1) ->
    jwt_reads_back (token_payload (utcnow E1) (ur_id (user r1))
                      (uc_email account) (uc_role account)) (JWT_SECRET config) ->
    utcnow E2 < utcnow E1 + 86400 ->
    db_fault E2 SelectUserById = false ->
    get_me_route config sqlite_integer E2 (access_token r1) w1
    = (Return (user r1), w1)
    /\ ur_email (user r1) = uc_email account
    /\ ur_name (user r1) = uc_name account
    /\ ur_role (user r1) = uc_role account
    /\ ur_is_active (user r1) = true.
Proof.
  intros E1 E2 account request w w1 r1 Hreg Hback Hfresh Hsel.
  destruct (register_returns E1 account request w r1 w1 Hreg)
    as (Hr & Hbind & Husers).
  subst r1. cbn [user ur_id ur_email ur_name ur_role ur_is_active
                 access_token] in *.
  split; [|repeat split].
  unfold get_me_route, get_current_user.
  rewrite (decode_fresh_token config E2 _ _ _ _ Hback Hfresh).
  unfold get_me, py_item, db_exec. rewrite Hsel.
  unfold bind, lift, ret, gets. cbv beta iota.
  cbn [token_payload dict_get String.eqb Ascii.eqb Bool.eqb]. rewrite Hbind.
  cbv beta iota. cbn [select_user_by_id]. rewrite Husers.
  rewrite (find_app_none _ _ _ (find_by_id_fresh (users w) (users_seq w))).
  simpl. rewrite Z.eqb_refl. reflexivity.
Qed.

Lemma find_by_id_absent (l : list user_row) id :
  (forall u, In u l -> u_id u <> id) ->
  find (fun u => u_id u =? id) l = None.
Proof.
  intros H. destruct (find _ l) as [u|] eqn:Hfind; [|reflexivity].
  apply find_some in Hfind. destruct Hfind as [Hin Heq].
  apply Z.eqb_eq in Heq. exfalso. exact (H u Hin Heq).
Qed.

(** X15: [/auth/me] reads the store and nothing else.  For a token whose
    [user_id] is an integer, it answers 404 "User not found" when no row
    has that id, and otherwise the stored row's id, email, name, role and
    active flag as they are now (an account switched off is reported as
    such, not refused); a payload without [user_id] ends in an unhandled
    [KeyError]; and no run of it changes the world. *)
Theorem get_me_reads_store :
  forall (E : env) (claims : dict) (w : world),
    (forall id,
       dict_get "user_id" claims = Some (JInt id) ->
       - 2 ^ 63 <= id < 2 ^ 63 ->
       db_fault E SelectUserById = false ->
       ((forall u, In u (users w) -> u_id u <> id) ->
          get_me sqlite_integer E claims w
          = (HTTPException 404 "User not found", w))
       /\ (forall u, find (fun u => u_id u =? id) (users w) = Some u ->
             get_me sqlite_integer E claims w
             = (Return {| ur_id := u_id u; ur_email := u_email u;
                          ur_name := u_name u; ur_role := u_role u;
                          ur_is_active := u_is_active u |}, w)))
    /\ (dict_get "user_id" claims = None ->
        get_me sqlite_integer E claims w = (Uncaught KeyError, w))
    /\ snd (get_me sqlite_integer E claims w) = w.
Proof.
  intros E claims w. split; [|split].
  - intros id Hid Hrange Hsel.
    assert (Hr : sql_bind (JInt id) = Return (SqlInt id)).
    { unfold sql_bind.
      replace ((- 2 ^ 63 <=? id) && (id <? 2 ^ 63)) with true; [reflexivity|].
      symmetry. apply andb_true_iff.
      split; [apply Z.leb_le | apply Z.ltb_lt]; lia. }
    split.
    + intros Habsent. unfold get_me, py_item, db_exec. rewrite Hid, Hsel.
      unfold bind, lift, ret, gets. cbv beta iota. rewrite Hr. cbv beta iota.
      cbn [select_user_by_id]. rewrite (find_by_id_absent _ _ Habsent).
      reflexivity.
    + intros u Hfound. unfold get_me, py_item, db_exec. rewrite Hid, Hsel.
      unfold bind, lift, ret, gets. cbv beta iota. rewrite Hr. cbv beta iota.
      cbn [select_user_by_id]. rewrite Hfound. reflexivity.
  - intros Hnone. unfold get_me, py_item. rewrite Hnone. reflexivity.
  - assert (K : keeps (fun w => w) (get_me sqlite_integer E claims))
      by (unfold get_me; frame).
    exact (K w).
Qed.

(** ** What a login changes *)

Lemma login_users_after E credentials request w u :
  db_fault E SelectUserByEmail = false ->
  find_user_by_email (ul_email credentials) w = Some u ->
  bcrypt_verify (ul_password credentials) (u_password_hash u) = Some true ->
  u_is_active u = true ->
  db_fault E UpdateLastLogin = false ->
  users (snd (login config E credentials request w))
  = map (fun r => if u_id r =? u_id u then stamped (utcnow E) r else r) (users w).
Proof.
  intros Hsel Hfind Hver Hon Hupd.
  rewrite (login_checked config E credentials request w u true Hsel Hfind Hver).
  rewrite Hon. cbn [negb].
  unfold touch_login, db_exec. rewrite Hupd.
  unfold bind at 1. unfold bind at 1. unfold ret at 1. unfold modify at 1.
  cbv beta iota.
  match goal with
  | |- users (snd (?rest ?w1)) = _ =>
      assert (K : keeps users rest) by frame; rewrite (K w1)
  end.
  reflexivity.
Qed.

(** X16: a login that gets past the password and the active flag stamps
    the last-login time of the rows with that user's id with the clock
    of the request, and changes nothing else in the users table: the
    rows with another id are kept as they are, and every row keeps its
    id, email, password hash, name, role and active flag. *)
Theorem login_stamps_last_login_only :
  forall (E : env) (credentials : UserLogin) (request : Request) (w : world)
         (u : user_row),
    db_fault E SelectUserByEmail = false ->
    find_user_by_email (ul_email credentials) w = Some u ->
    bcrypt_verify (ul_password credentials) (u_password_hash u) = Some true ->
    u_is_active u = true ->
    db_fault E UpdateLastLogin = false ->
    let after := users (snd (login config E credentials request w)) in
    find_user_by_email (ul_email credentials) (snd (login config E credentials request w))
    = Some (stamped (utcnow E) u)
    /\ List.length after = List.length (users w)
    /\ (forall r, In r (users w) -> u_id r <> u_id u -> In r after)
    /\ (forall r', In r' after ->
          exists r, In r (users w)
                    /\ (r' = r \/ (u_id r = u_id u /\ r' = stamped (utcnow E) r))).
Proof.
  intros E credentials request w u Hsel Hfind Hver Hon Hupd after.
  subst after. unfold find_user_by_email in *.
  rewrite (login_users_after E credentials request w u Hsel Hfind Hver Hon Hupd).
  split; [|split; [|split]].
  - clear Hver Hon. revert Hfind.
    induction (users w) as [|a l IH]; simpl; [discriminate|].
    destruct (String.eqb (u_email a) (ul_email credentials)) eqn:Ha.
    + intros H. inversion H. subst a. rewrite Z.eqb_refl. simpl. rewrite Ha.
      reflexivity.
    + intros H. destruct (u_id a =? u_id u); simpl; rewrite Ha; apply IH, H.
  - apply length_map.
  - intros r Hin Hne. apply in_map_iff. exists r. split; [|exact Hin].
    destruct (Z.eqb_spec (u_id r) (u_id u)); [contradiction | reflexivity].
  - intros r' Hin. apply in_map_iff in Hin. destruct Hin as (r & Hr & Hin).
    exists r. split; [exact Hin|].
    destruct (Z.eqb_spec (u_id r) (u_id u)) as [Heq|];
      [right; split; [exact Heq | symmetry; exact Hr] | left; symmetry; exact Hr].
Qed.

(** ** Registration hands out roles *)

Lemma in_strs_of_In role roles : In role roles -> in_strs (JStr role) roles = true.
Proof.
  intros H. unfold in_strs. apply existsb_exists.
  exists role. split; [exact H | apply String.eqb_refl].
Qed.

(** X17: [register] asks for no credentials and signs the role the
    request names into the token it returns, so that token passes, until
    it expires, the guard of every route that allows that role: whoever
    registers with role "admin" is let through the admin gate. *)
Theorem registered_role_passes_gate :
  forall (E1 E2 : env) (account : UserCreate) (request : Request)
         (w w1 w2 : world) (r1 : TokenResponse) (allowed_roles : list string),
    register config E1 account request w = (Return r1, w1) ->
    jwt_reads_back (token_payload (utcnow E1) (ur_id (user r1))
                      (uc_email account) (uc_role account)) (JWT_SECRET config) ->
    utcnow E2 < utcnow E1 + 86400 ->
    In (uc_role account) allowed_roles ->
    require_role config allowed_roles E2 (access_token r1) w2
    = (Return (token_payload (utcnow E1) (ur_id (user r1))
                 (uc_email account) (uc_role account)), w2).
Proof.
  intros E1 E2 account request w w1 w2 r1 allowed_roles Hreg Hback Hfresh Hin.
  destruct (register_returns E1 account request w r1 w1 Hreg) as (Hr & _ & _).
  subst r1. cbn [user ur_id access_token] in *.
  unfold require_role, get_current_user.
  rewrite (decode_fresh_token config E2 _ _ _ _ Hback Hfresh).
  unfold bind, lift, ret, raise_http, py_item. cbv beta iota.
  cbn [token_payload dict_get String.eqb Ascii.eqb Bool.eqb].
  cbv beta iota. rewrite (in_strs_of_In _ _ Hin). reflexivity.
Qed.

End Identity.

(** * The Slack bot: locations *)

Lemma append_nil_r (s : string) : (s ++ "")%string = s.
Proof. induction s as [|c s IH]; simpl; [reflexivity | rewrite IH; reflexivity]. Qed.

Lemma append_snoc_cons (acc : string) c (s : string) :
  ((acc ++ String c "") ++ s)%string = (acc ++ String c s)%string.
Proof. induction acc as [|a acc IH]; simpl; [reflexivity | rewrite IH; reflexivity]. Qed.

Lemma has_char_app c (a b : string) :
  has_char c (a ++ b) = has_char c a || has_char c b.
Proof.
  induction a as [|x a IH]; simpl; [reflexivity|].
  rewrite IH. apply orb_assoc.
Qed.

Lemma is_empty_app (a b : string) :
  is_empty (a ++ b) = is_empty a && is_empty b.
Proof. destruct a; reflexivity. Qed.

(** Reading on from a word in progress, through text without whitespace. *)
Lemma words_from_word (s acc : string) :
  (forall c, has_char c s = true -> is_space c = false) ->
  words_from acc s = if is_empty (acc ++ s) then [] else [(acc ++ s)%string].
Proof.
  revert acc. induction s as [|c s IH]; intros acc Hs; simpl.
  - rewrite append_nil_r. reflexivity.
  - rewrite (Hs c) by (simpl; rewrite Ascii.eqb_refl; reflexivity).
    rewrite IH, append_snoc_cons; [reflexivity|].
    intros c' Hc'. apply Hs. simpl. rewrite Hc'. apply orb_true_r.
Qed.

(** ... and through such text up to a whitespace character. *)
Lemma words_from_word_space (s acc : string) sp (rest : string) :
  (forall c, has_char c s = true -> is_space c = false) ->
  is_space sp = true ->
  words_from acc (s ++ String sp rest)
  = (if is_empty (acc ++ s) then [] else [(acc ++ s)%string])
      ++ words_from "" rest.
Proof.
  revert acc. induction s as [|c s IH]; intros acc Hs Hsp; simpl.
  - rewrite Hsp, append_nil_r. destruct (is_empty acc); reflexivity.
  - rewrite (Hs c) by (simpl; rewrite Ascii.eqb_refl; reflexivity).
    rewrite IH, append_snoc_cons; [reflexivity | | exact Hsp].
    intros c' Hc'. apply Hs. simpl. rewrite Hc'. apply orb_true_r.
Qed.

(** Every word [split] gives is a word, made of characters of the text. *)
Lemma words_from_are_words (s acc : string) :
  (forall c, has_char c acc = true -> is_space c = false) ->
  Forall is_word (words_from acc s).
Proof.
  revert acc. induction s as [|c s IH]; intros acc Hacc; simpl.
  - destruct acc as [|a acc]; simpl; constructor; [|constructor].
    split; [discriminate | exact Hacc].
  - destruct (is_space c) eqn:Hc.
    + destruct acc as [|a acc]; simpl.
      * apply IH. intros c' H. discriminate.
      * constructor; [split; [discriminate | exact Hacc]|].
        apply IH. intros c' H. discriminate.
    + apply IH. intros c' H. rewrite has_char_app in H.
      apply orb_true_iff in H. destruct H as [H | H]; [apply Hacc, H|].
      simpl in H. rewrite orb_false_r in H.
      apply Ascii.eqb_eq in H. subst c'. exact Hc.
Qed.

Lemma words_from_chars (s acc : string) c w :
  In w (words_from acc s) -> has_char c w = true ->
  has_char c acc = true \/ has_char c s = true.
Proof.
  revert acc. induction s as [|x s IH]; intros acc Hin Hc; simpl in *.
  - destruct (is_empty acc); [contradiction|].
    destruct Hin as [<- | []]. left. exact Hc.
  - destruct (is_space x).
    + destruct (is_empty acc).
      * destruct (IH _ Hin Hc) as [H | H]; [discriminate|].
        right. rewrite H. apply orb_true_r.
      * destruct Hin as [<- | Hin]; [left; exact Hc|].
        destruct (IH _ Hin Hc) as [H | H]; [discriminate|].
        right. rewrite H. apply orb_true_r.
    + destruct (IH _ Hin Hc) as [H | H].
      * rewrite has_char_app in H. apply orb_true_iff in H.
        destruct H as [H | H]; [left; exact H|].
        right. simpl in H. rewrite orb_false_r in H. rewrite H. reflexivity.
      * right. rewrite H. apply orb_true_r.
Qed.

(** Splitting what [join] put together gives the words back. *)
Lemma split_join_words (ws : list string) :
  Forall is_word ws -> py_split (py_join " " ws) = ws.
Proof.
  unfold py_split, py_join.
  induction 1 as [|w ws [Hne Hfree] Hws IH]; [reflexivity|].
  destruct ws as [|w' ws].
  - simpl. rewrite (words_from_word w "" Hfree). simpl.
    destruct w; [contradiction | reflexivity].
  - change (concat " " (w :: w' :: ws))
      with (w ++ String " " (concat " " (w' :: ws)))%string.
    rewrite (words_from_word_space w "" " " _ Hfree eq_refl).
    rewrite IH. simpl. destruct w; [contradiction | reflexivity].
Qed.

Lemma has_char_cons c x (s : string) :
  has_char c (String x s) = Ascii.eqb x c || has_char c s.
Proof. reflexivity. Qed.

Lemma has_char_join c (ws : list string) :
  is_space c = false ->
  has_char c (py_join " " ws) = existsb (has_char c) ws.
Proof.
  intros Hc. unfold py_join. induction ws as [|w ws IH]; [reflexivity|].
  destruct ws as [|w' ws].
  - simpl. rewrite orb_false_r. reflexivity.
  - change (concat " " (w :: w' :: ws))
      with (w ++ String " " (concat " " (w' :: ws)))%string.
    rewrite has_char_app, has_char_cons, IH.
    replace (Ascii.eqb " " c) with false; [reflexivity|].
    symmetry. apply Ascii.eqb_neq. intros <-. discriminate.
Qed.

(** [" ".join(text.split())] brings in no character but the space. *)
Lemma normalized_chars c (text : string) :
  is_space c = false ->
  has_char c (py_join " " (py_split text)) = true -> has_char c text = true.
Proof.
  intros Hc H. rewrite (has_char_join c _ Hc) in H.
  apply existsb_exists in H. destruct H as (w & Hin & Hw).
  destruct (words_from_chars text "" c w Hin Hw) as [H | H];
    [discriminate | exact H].
Qed.

(** [text.split()] sees the normalized text as it sees the text. *)
Lemma split_normalized (text : string) :
  py_split (py_join " " (py_split text)) = py_split text.
Proof.
  apply split_join_words. apply words_from_are_words.
  intros c H. discriminate.
Qed.

(** X18: a location without a comma is read by its words.  With two
    words or more, the last word in upper case is the state and the
    others, joined by single spaces, are the city; a single word is the
    city of the default state "TX"; a text that is empty or all
    whitespace gives the empty city in "TX". *)
Theorem parse_location_by_words :
  forall (text : string),
    has_char comma text = false ->
    (py_split text = [] -> parse_location text = ("", "TX"))
    /\ (forall w, py_split text = [w] -> parse_location text = (w, "TX"))
    /\ ((2 <= List.length (py_split text))%nat ->
        parse_location text
        = (py_join " " (but_last (py_split text)),
           py_upper (last_word (py_split text)))).
Proof.
  intros text Hcomma.
  assert (Hnorm : has_char comma (py_join " " (py_split text)) = false).
  { destruct (has_char comma (py_join " " (py_split text))) eqn:H; [|reflexivity].
    rewrite (normalized_chars comma text eq_refl H) in Hcomma. discriminate. }
  unfold parse_location. rewrite Hnorm, split_normalized.
  split; [|split].
  - intros H. rewrite H. reflexivity.
  - intros w H. rewrite H. reflexivity.
  - intros H. apply Nat.leb_le in H. rewrite H. reflexivity.
Qed.

(** Reading a field through text without the separator, up to the next
    separator or to the end. *)
Lemma fields_from_field sep (a acc rest : string) :
  has_char sep a = false ->
  fields_from sep acc (a ++ String sep rest)
  = (acc ++ a)%string :: fields_from sep "" rest.
Proof.
  revert acc. induction a as [|c a IH]; intros acc Ha; simpl.
  - rewrite Ascii.eqb_refl, append_nil_r. reflexivity.
  - simpl in Ha. apply orb_false_iff in Ha. destruct Ha as [Hc Ha].
    rewrite Hc, IH, append_snoc_cons by exact Ha. reflexivity.
Qed.

Lemma fields_from_last sep (a acc : string) :
  has_char sep a = false ->
  fields_from sep acc a = [(acc ++ a)%string].
Proof.
  revert acc. induction a as [|c a IH]; intros acc Ha; simpl.
  - rewrite append_nil_r. reflexivity.
  - simpl in Ha. apply orb_false_iff in Ha. destruct Ha as [Hc Ha].
    rewrite Hc, IH, append_snoc_cons by exact Ha. reflexivity.
Qed.

(** X19: a location in ASCII with a comma is read by its fields, never by
    its words.  When the text, with its whitespace normalized, is [a], a
    comma, [b] and then nothing or a further comma and more, the city is
    [a] and the state is [b], both trimmed: the state is not put in upper
    case, what follows a second comma is dropped, and an empty [b] gives
    the empty state, not the default "TX". *)
Theorem parse_location_by_commas :
  forall (text a b more : string),
    is_ascii text = true ->
    has_char comma a = false ->
    has_char comma b = false ->
    (py_join " " (py_split text) = a ++ String comma b
     \/ py_join " " (py_split text) = a ++ String comma (b ++ String comma more))%string ->
    parse_location text = (py_strip a, py_strip b).
Proof.
  intros text a b more _ Ha Hb Hnorm.
  unfold parse_location.
  assert (Hhas : has_char comma (py_join " " (py_split text)) = true).
  { destruct Hnorm as [-> | ->]; rewrite has_char_app, has_char_cons;
      rewrite Ascii.eqb_refl; apply orb_true_r. }
  rewrite Hhas. unfold py_split_on.
  destruct Hnorm as [-> | ->].
  - rewrite (fields_from_field comma a "" b Ha).
    rewrite (fields_from_last comma b "" Hb). reflexivity.
  - rewrite (fields_from_field comma a "" _ Ha).
    rewrite (fields_from_field comma b "" more Hb). reflexivity.
Qed.

(** *** Writing a location and reading it back *)

Lemma string_app_assoc (a b c : string) :
  ((a ++ b) ++ c)%string = (a ++ (b ++ c))%string.
Proof. induction a as [|x a IH]; simpl; [reflexivity | rewrite IH; reflexivity]. Qed.

Lemma lstrip_nonspace c (s : string) :
  is_space c = false -> lstrip (String c s) = String c s.
Proof. intros H. simpl. rewrite H. reflexivity. Qed.

Lemma rstrip_space_free (s : string) :
  (forall c, has_char c s = true -> is_space c = false) -> rstrip s = s.
Proof.
  induction s as [|c s IH]; intros Hs; simpl; [reflexivity|].
  rewrite IH by (intros c' Hc'; apply Hs; simpl; rewrite Hc'; apply orb_true_r).
  rewrite (Hs c) by (simpl; rewrite Ascii.eqb_refl; reflexivity).
  reflexivity.
Qed.

Lemma rstrip_app (x y : string) :
  rstrip y = y -> y <> EmptyString -> rstrip (x ++ y) = (x ++ y)%string.
Proof.
  intros Hy Hne. induction x as [|c x IH]; simpl; [exact Hy|].
  rewrite IH. destruct (x ++ y)%string eqn:Hxy.
  - destruct x; simpl in Hxy; [contradiction | discriminate].
  - rewrite andb_false_r. reflexivity.
Qed.

Lemma join_cons_cons (w w' : string) (ws : list string) :
  py_join " " (w :: w' :: ws) = (w ++ String " " (py_join " " (w' :: ws)))%string.
Proof. reflexivity. Qed.

Lemma join_nonempty (ws : list string) :
  Forall is_word ws -> ws <> [] -> py_join " " ws <> EmptyString.
Proof.
  intros Hws Hne. destruct Hws as [|w ws [Hw _] _]; [contradiction|].
  destruct ws; [exact Hw|]. rewrite join_cons_cons.
  destruct w; [contradiction | discriminate].
Qed.

(** Words joined by single spaces have nothing to trim. *)
Lemma strip_join_words (ws : list string) :
  Forall is_word ws -> py_strip (py_join " " ws) = py_join " " ws.
Proof.
  intros Hws. unfold py_strip.
  assert (Hl : lstrip (py_join " " ws) = py_join " " ws).
  { destruct Hws as [|w ws [Hne Hfree] _]; [reflexivity|].
    destruct w as [|c w]; [contradiction|].
    assert (Hc : is_space c = false)
      by (apply Hfree; simpl; rewrite Ascii.eqb_refl; reflexivity).
    destruct ws; [apply lstrip_nonspace, Hc|].
    rewrite join_cons_cons. apply lstrip_nonspace, Hc. }
  rewrite Hl.
  induction Hws as [|w ws [Hne Hfree] Hws IH]; [reflexivity|].
  destruct ws as [|w' ws]; [apply rstrip_space_free, Hfree|].
  rewrite join_cons_cons.
  change (w ++ String " " (py_join " " (w' :: ws)))%string
    with (w ++ (String " " "" ++ py_join " " (w' :: ws)))%string.
  assert (Hrest : rstrip (py_join " " (w' :: ws)) = py_join " " (w' :: ws)).
  { apply IH. destruct w' as [|c' w'].
    - inversion Hws as [|? ? [Hw' _] _]. contradiction.
    - inversion Hws as [|? ? [_ Hf'] _]. destruct ws.
      + apply lstrip_nonspace, Hf'. simpl. rewrite Ascii.eqb_refl. reflexivity.
      + rewrite join_cons_cons. apply lstrip_nonspace, Hf'.
        simpl. rewrite Ascii.eqb_refl. reflexivity. }
  assert (Hne' : py_join " " (w' :: ws) <> EmptyString)
    by (apply join_nonempty; [exact Hws | discriminate]).
  rewrite (rstrip_app w _); [reflexivity | | discriminate].
  apply (rstrip_app (String " " "") _ Hrest Hne').
Qed.

Lemma join_snoc (ws : list string) (x : string) :
  ws <> [] -> py_join " " (ws ++ [x]) = (py_join " " ws ++ String " " x)%string.
Proof.
  induction ws as [|w ws IH]; intros Hne; [contradiction|].
  destruct ws as [|w' ws]; [reflexivity|].
  change ((w :: w' :: ws) ++ [x]) with (w :: w' :: (ws ++ [x])).
  rewrite !join_cons_cons.
  change (w' :: ws ++ [x]) with ((w' :: ws) ++ [x]).
  rewrite IH by discriminate.
  rewrite string_app_assoc. reflexivity.
Qed.

Lemma join_last_app (init : list string) (l t : string) :
  py_join " " (init ++ [(l ++ t)%string]) = (py_join " " (init ++ [l]) ++ t)%string.
Proof.
  induction init as [|w init IH]; [reflexivity|].
  destruct init as [|w' init].
  - simpl. rewrite string_app_assoc. reflexivity.
  - change ((w :: w' :: init) ++ [(l ++ t)%string])
      with (w :: ((w' :: init) ++ [(l ++ t)%string])).
    change ((w :: w' :: init) ++ [l]) with (w :: ((w' :: init) ++ [l])).
    change ((w' :: init) ++ [(l ++ t)%string])
      with (w' :: (init ++ [(l ++ t)%string])) at 1.
    change ((w' :: init) ++ [l]) with (w' :: (init ++ [l])) at 1.
    rewrite !join_cons_cons.
    change (w' :: init ++ [(l ++ t)%string])
      with ((w' :: init) ++ [(l ++ t)%string]).
    change (w' :: init ++ [l]) with ((w' :: init) ++ [l]).
    rewrite IH. rewrite string_app_assoc. reflexivity.
Qed.

Lemma is_word_app (l t : string) :
  is_word l -> (forall c, has_char c t = true -> is_space c = false) ->
  is_word (l ++ t).
Proof.
  intros [Hne Hfree] Ht. split.
  - destruct l; [contradiction | discriminate].
  - intros c Hc. rewrite has_char_app in Hc. apply orb_true_iff in Hc.
    destruct Hc as [Hc | Hc]; [apply Hfree, Hc | apply Ht, Hc].
Qed.

(** X20: a city of one or more words and a state of one word, all in
    ASCII and none holding a comma, are read back from both ways of
    writing them: from
    "city, state" as the pair itself, the state as written; from
    "city state" with the state in upper case. *)
Theorem parse_location_reads_back :
  forall (city_words : list string) (state : string),
    city_words <> [] ->
    forallb is_ascii city_words = true ->
    is_ascii state = true ->
    Forall is_word city_words ->
    (forall w, In w city_words -> has_char comma w = false) ->
    is_word state ->
    has_char comma state = false ->
    let city := py_join " " city_words in
    parse_location (city ++ String comma (String " " state)) = (city, state)
    /\ parse_location (city ++ String " " state) = (city, py_upper state).
Proof.
  intros city_words state Hne _ _ Hwords Hcommas Hstate Hscomma city.
  assert (Hcity_comma : has_char comma city = false).
  { subst city. rewrite (has_char_join comma _ eq_refl).
    destruct (existsb (has_char comma) city_words) eqn:He; [|reflexivity].
    apply existsb_exists in He. destruct He as (w & Hin & Hw).
    rewrite (Hcommas w Hin) in Hw. discriminate. }
  split.
  - (* "city, state" *)
    destruct (exists_last Hne) as (init & l & Hsplit).
    assert (Hl : is_word l).
    { rewrite Forall_forall in Hwords. apply Hwords. rewrite Hsplit.
      apply in_or_app. right. left. reflexivity. }
    assert (Hinit : Forall is_word init).
    { rewrite Forall_forall in *. intros w Hw. apply Hwords. rewrite Hsplit.
      apply in_or_app. left. exact Hw. }
    assert (Htext : (city ++ String comma (String " " state))%string
                    = py_join " " ((init ++ [(l ++ String comma "")%string]) ++ [state])).
    { rewrite join_snoc by (destruct init; discriminate).
      rewrite join_last_app. subst city. rewrite Hsplit.
      rewrite string_app_assoc. reflexivity. }
    assert (Hnorm : py_join " " (py_split (city ++ String comma (String " " state)))
                    = (city ++ String comma (String " " state))%string).
    { rewrite Htext at 1. rewrite split_join_words; [symmetry; exact Htext|].
      apply Forall_app. split; [|constructor; [exact Hstate | constructor]].
      apply Forall_app. split; [exact Hinit|].
      constructor; [|constructor].
      apply is_word_app; [exact Hl|].
      intros c Hc. rewrite has_char_cons in Hc.
      change (has_char c "") with false in Hc. rewrite orb_false_r in Hc.
      apply Ascii.eqb_eq in Hc. subst c. reflexivity. }
    unfold parse_location. rewrite Hnorm.
    rewrite has_char_app, has_char_cons, Ascii.eqb_refl, orb_true_r.
    unfold py_split_on.
    rewrite (fields_from_field comma city "" _ Hcity_comma).
    rewrite (fields_from_last comma (String " " state) "").
    2:{ rewrite has_char_cons, Hscomma. reflexivity. }
    cbn [map append].
    subst city. rewrite (strip_join_words _ Hwords).
    f_equal. unfold py_strip. simpl lstrip.
    destruct Hstate as [Hsne Hsfree].
    assert (Hls : lstrip state = state).
    { destruct state as [|c s]; [contradiction|].
      apply lstrip_nonspace, Hsfree. simpl. rewrite Ascii.eqb_refl. reflexivity. }
    rewrite Hls. apply rstrip_space_free, Hsfree.
  - (* "city state" *)
    assert (Htext : (city ++ String " " state)%string
                    = py_join " " (city_words ++ [state]))
      by (symmetry; apply join_snoc, Hne).
    assert (Hall : Forall is_word (city_words ++ [state]))
      by (apply Forall_app; split; [exact Hwords | constructor; [exact Hstate | constructor]]).
    unfold parse_location. rewrite Htext.
    rewrite (split_join_words _ Hall).
    assert (Hno : has_char comma (py_join " " (city_words ++ [state])) = false).
    { rewrite (has_char_join comma _ eq_refl), existsb_app. simpl.
      rewrite Hscomma.
      rewrite <- (has_char_join comma city_words eq_refl). fold city.
      rewrite Hcity_comma. reflexivity. }
    rewrite Hno, (split_join_words _ Hall).
    assert (Hlen : (2 <=? List.length (city_words ++ [state]))%nat = true).
    { apply Nat.leb_le. rewrite length_app. simpl.
      destruct city_words; [contradiction | simpl; lia]. }
    rewrite Hlen. unfold but_last, last_word.
    rewrite removelast_last, last_last. reflexivity.
Qed.

Section Routes.

Context {L : Libraries}.
Variable config : Config.
Variable sqlite_integer : string -> option Z.

(** ** Routes behind a token, without a role *)

(** X21: the routes that ask for a token but for no role (property
    search, property lookup, AI query, [/auth/me]) answer a token that
    fails validation with 401 and leave the world as it was: no provider
    is called and no activity row is written. *)
Theorem invalid_token_stops_every_route :
  forall (E : env) (credentials : string) (w : world),
    succeeded (decode_token config E credentials) = false ->
    exists detail,
      (forall req request,
         search_properties_route config E credentials req request w
         = (HTTPException 401 detail, w))
      /\ (forall req request,
            lookup_property_route config E credentials req request w
            = (HTTPException 401 detail, w))
      /\ (forall req request,
            ai_query_route config E credentials req request w
            = (HTTPException 401 detail, w))
      /\ get_me_route config sqlite_integer E credentials w
         = (HTTPException 401 detail, w).
Proof.
  intros E credentials w Hbad.
  assert (Hd : exists detail,
             decode_token config E credentials = HTTPException 401 detail).
  { destruct (decode_token_fails_with_401 config E credentials Hbad) as [H | H];
      rewrite H; eexists; reflexivity. }
  destruct Hd as (detail & Hd). exists detail.
  unfold search_properties_route, lookup_property_route, ai_query_route,
    get_me_route, get_current_user.
  repeat split; intros; apply bind_fail_http; unfold lift; rewrite Hd; reflexivity.
Qed.

End Routes.

Section Lookup.

(** ** Property lookup *)

(** X22: [lookup_property] asks the provider for the detail of the first
    candidate AutoComplete gives, by that candidate's [address_id] (null
    when the candidate has none), and answers with both replies as they
    came, under [autocomplete] and [detail]; it makes these two calls, in
    this order, and logs the address. *)
Theorem lookup_property_forwards_first_candidate :
  forall (E : env) (req : AddressLookupRequest) (request : Request)
         (user : dict) (w : world) (uid : json) (v : sqlval) (ip : string)
         (o candidate : dict) (rest : list json) (detail : json),
    dict_get "user_id" user = Some uid ->
    sql_bind uid = Return v ->
    client request = Some ip ->
    db_fault E InsertActivity = false ->
    realestate_reply E "AutoComplete" (JObj [("search", JStr (address req))])
    = HttpJson (JObj o) ->
    dict_get "data" o = Some (JArr (JObj candidate :: rest)) ->
    let address_id := match dict_get "address_id" candidate with
                      | Some a => a | None => JNull end in
    realestate_reply E "PropertyDetail" (JObj [("address_id", address_id)])
    = HttpJson detail ->
    let run := lookup_property E req request user w in
    fst run = Return (JObj [("autocomplete", JObj o); ("detail", detail)])
    /\ upstream_calls (snd run)
       = upstream_calls w
         ++ [RealEstateCall "AutoComplete" (JObj [("search", JStr (address req))]);
             RealEstateCall "PropertyDetail" (JObj [("address_id", address_id)])]
    /\ exists row, activity_log (snd run) = activity_log w ++ [row]
                   /\ a_action row = "property_lookup"
                   /\ a_details row = Some (address req)
                   /\ a_ip_address row = Some ip.
Proof.
  intros E req request user w uid v ip o candidate rest detail
         Huid Hbind Hip Hlog Hauto Hdata address_id Hdetail run.
  subst run.
  unfold lookup_property, re_autocomplete, re_property_detail, re_post,
    record_call, log_activity, db_exec, client_host, py_item, py_get, py_first.
  rewrite Hauto, Huid, Hip, Hlog.
  unfold bind, ret, lift, modify, raise_http. cbv beta iota.
  rewrite Hdata. cbv beta iota. cbn [truthy negb].
  fold address_id. rewrite Hdetail. cbv beta iota. rewrite Hbind. cbv beta iota.
  cbn [fst snd upstream_calls activity_log].
  rewrite <- app_assoc.
  repeat split. eexists. repeat split.
Qed.

End Lookup.

(** * Runs of the further properties *)

Section MoreRuns.

Import Sample Cases.
#[local] Existing Instance libraries.

Lemma require_role_admits_exactly_witness :
  fst (require_role config skip_trace_roles (calm 300) admin_token empty_world)
  = Return (claims 2 "admin" (JInt 86500))
  /\ snd (require_role config skip_trace_roles (calm 300) admin_token empty_world)
     = empty_world.
Proof.
  destruct (require_role_admits_exactly config skip_trace_roles (calm 300)
              admin_token empty_world) as (Hiff & _ & Hworld).
  split; [|exact Hworld].
  apply (proj2 (Hiff (claims 2 "admin" (JInt 86500)))).
  split; [reflexivity|]. exists (JStr "admin"). split; reflexivity.
Defined.

Lemma member_token_reads_back :
  jwt_reads_back (token_payload 100 1 "alice@example.com" "member")
                 (JWT_SECRET config).
Proof. vm_compute. reflexivity. Defined.

Lemma member_token_made :
  fst (create_token config (calm 100) 1 "alice@example.com" "member" empty_world)
  = Return member_token.
Proof. vm_compute. reflexivity. Defined.

Lemma token_valid_for_24_hours_witness :
  decode_token config (calm 86499) member_token = Return member_claims
  /\ decode_token config (calm 86501) member_token
     = HTTPException 401 "Token expired".
Proof.
  destruct (token_valid_for_24_hours config (calm 100) (calm 86499) 1
              "alice@example.com" "member" member_token empty_world
              member_token_reads_back member_token_made) as [Hfresh _].
  destruct (token_valid_for_24_hours config (calm 100) (calm 86501) 1
              "alice@example.com" "member" member_token empty_world
              member_token_reads_back member_token_made) as [_ Hlate].
  split; [apply Hfresh; reflexivity | apply Hlate; reflexivity].
Defined.

Lemma rotated_secret_rejects_token_witness :
  decode_token config_rotated (calm 300) member_token
  = HTTPException 401 "Invalid token".
Proof.
  apply (rotated_secret_rejects_token config config_rotated (calm 100) (calm 300)
           1 "alice@example.com" "member" member_token empty_world
           member_token_reads_back member_token_made).
  vm_compute. discriminate.
Defined.

Lemma alice_registered :
  register config (calm 100) alice peer empty_world
  = (Return alice_response, world_with_alice).
Proof. vm_compute. reflexivity. Defined.

Lemma admin_registered :
  register config (calm 100) self_made_admin peer world_with_bob
  = (Return admin_response, world_with_admin).
Proof. vm_compute. reflexivity. Defined.

Lemma second_registration_rejected_witness :
  register config (calm 200) self_made_admin peer world_with_alice
  = (HTTPException 400 "Email already registered", world_with_alice).
Proof.
  apply (second_registration_rejected config (calm 100) (calm 200) alice
           self_made_admin peer peer empty_world world_with_alice
           alice_response alice_registered); reflexivity.
Defined.

Lemma world_with_alice_wf : users_wf world_with_alice.
Proof.
  split; simpl; (constructor; [intros [] | constructor]).
Defined.

Lemma users_table_stays_well_formed_witness :
  users_wf (snd (register config (calm 200) bob peer world_with_alice))
  /\ users_wf (snd (login config (calm 300) alice_login peer world_with_alice)).
Proof.
  destruct (users_table_stays_well_formed config (calm 200) world_with_alice
              world_with_alice_wf) as [Hreg _].
  destruct (users_table_stays_well_formed config (calm 300) world_with_alice
              world_with_alice_wf) as [_ Hlogin].
  split; [apply Hreg | apply Hlogin].
Defined.

Lemma failed_register_leaves_account_witness :
  let run := register config (calm 100) alice no_peer empty_world in
  http_status (fst run) = 500
  /\ find_user_by_email "alice@example.com" (snd run)
     = Some (registered_row (calm 100) alice empty_world)
  /\ register config (calm 200) alice peer (snd run)
     = (HTTPException 400 "Email already registered", snd run).
Proof.
  destruct (failed_register_leaves_account config (calm 100) alice no_peer
              empty_world)
    as (Hstatus & Hfound & Hagain);
    [reflexivity | reflexivity | reflexivity | reflexivity
    | left; reflexivity |].
  split; [exact Hstatus|]. split; [exact Hfound|].
  apply (Hagain (calm 200) peer eq_refl).
Defined.

Lemma three_seconds_increasing : log_ids_increasing three_seconds.
Proof.
  unfold log_ids_increasing. simpl.
  repeat (constructor; [|repeat constructor; reflexivity]). constructor.
Defined.

Lemma activity_ids_stay_increasing_witness :
  map a_id (activity_log
              (snd (search_properties (calm 600) austin peer member_claims
                      three_seconds))) = [1; 2; 3; 4]
  /\ log_ids_increasing
       (snd (search_properties (calm 600) austin peer member_claims three_seconds))
  /\ log_ids_increasing
       (snd (login config (calm 600) alice_login peer three_seconds))
  /\ log_ids_increasing
       (snd (@search_buyers python (calm 600) buyers_in_austin peer
               member_claims three_seconds)).
Proof.
  destruct (activity_ids_stay_increasing config python (calm 600) three_seconds
              three_seconds_increasing)
    as (_ & Hlogin & Hsearch & _ & _ & _ & _ & Hbuyers).
  split; [reflexivity|].
  split; [apply Hsearch | split; [apply Hlogin | apply Hbuyers]].
Defined.

Lemma offline_no_candidate : no_candidate (offline 300) "1 Main St".
Proof. left. exists "timed out". reflexivity. Defined.

Lemma unknown_address_is_404_witness :
  fst (skip_trace (offline 300) main_street peer member_claims empty_world)
  = HTTPException 404 "Address not found"
  /\ fst (lookup_property (offline 300) main_street peer member_claims empty_world)
     = HTTPException 404 "Address not found".
Proof.
  destruct (unknown_address_is_404 (offline 300) main_street peer member_claims
              empty_world offline_no_candidate) as (Hskip & Hlookup & _).
  split; [rewrite Hskip | rewrite Hlookup]; reflexivity.
Defined.

Lemma provider_failure_is_returned_as_value_witness :
  fst (search_properties (offline 300) austin peer member_claims empty_world)
  = Return (JObj [("error", JStr "timed out"); ("data", JArr [])])
  /\ fst (skip_trace (flaky 300) main_street peer member_claims empty_world)
     = Return (JObj [("error", JStr "502 Bad Gateway"); ("data", JArr [])]).
Proof.
  split.
  - destruct (provider_failure_is_returned_as_value (offline 300) peer
                member_claims empty_world (JInt 1) (SqlInt 1) "10.0.0.7"
                "timed out" eq_refl eq_refl eq_refl eq_refl) as [Hsearch _].
    apply (Hsearch austin eq_refl).
  - destruct (provider_failure_is_returned_as_value (flaky 300) peer
                member_claims empty_world (JInt 1) (SqlInt 1) "10.0.0.7"
                "502 Bad Gateway" eq_refl eq_refl eq_refl eq_refl) as [_ Hskip].
    apply (Hskip main_street _ [("address_id", JStr "A-17")] [] (JStr "A-17")
             eq_refl eq_refl eq_refl eq_refl).
Defined.

Lemma ai_provider_failure_is_500_witness :
  let run := ai_query config (offline 300) ask peer member_claims empty_world in
  fst run = Uncaught HttpxError /\ http_status (fst run) = 500
  /\ activity_log (snd run) = [].
Proof.
  destruct (ai_provider_failure_is_500 config (offline 300) ask peer
              member_claims empty_world "timed out")
    as (Hrun & Hstatus & _ & Hlog).
  - discriminate.
  - reflexivity.
  - split; [exact Hrun|]. split; [exact Hstatus | exact Hlog].
Defined.

Lemma ai_reply_without_choices_witness :
  fst (ai_query config (ai_says (JObj [("error", JStr "quota")]) 300) ask peer
         member_claims empty_world)
  = Return (JObj [("response", JStr "No response");
                  ("model", JStr "gpt-3.5-turbo")])
  /\ fst (ai_query config (ai_says (JObj [("choices", JArr [])]) 300) ask peer
            member_claims empty_world)
     = Uncaught IndexError.
Proof.
  split.
  - destruct (ai_reply_without_choices config
                (ai_says (JObj [("error", JStr "quota")]) 300) ask peer
                member_claims empty_world [("error", JStr "quota")])
      as [Hnone _]; [discriminate | reflexivity |].
    apply (Hnone eq_refl (JInt 1) (SqlInt 1) "10.0.0.7");
      reflexivity.
  - destruct (ai_reply_without_choices config
                (ai_says (JObj [("choices", JArr [])]) 300) ask peer
                member_claims empty_world [("choices", JArr [])])
      as [_ Hempty]; [discriminate | reflexivity |].
    apply (Hempty eq_refl).
Defined.


Lemma get_me_after_register_witness :
  get_me_route config no_numeric_text (calm 300) member_token world_with_alice
  = (Return {| ur_id := 1; ur_email := "alice@example.com"; ur_name := "Alice";
               ur_role := "member"; ur_is_active := true |}, world_with_alice).
Proof.
  apply (get_me_after_register config no_numeric_text (calm 100) (calm 300)
           alice peer empty_world world_with_alice alice_response
           alice_registered member_token_reads_back); reflexivity.
Defined.

Lemma get_me_reads_store_witness :
  get_me no_numeric_text (calm 300) member_claims empty_world
  = (HTTPException 404 "User not found", empty_world)
  /\ fst (get_me no_numeric_text (calm 300) member_claims world_alice_disabled)
     = Return {| ur_id := 1; ur_email := "alice@example.com"; ur_name := "Alice";
                 ur_role := "member"; ur_is_active := false |}.
Proof.
  split.
  - destruct (get_me_reads_store no_numeric_text (calm 300) member_claims
                empty_world) as (Hint & _).
    destruct (Hint 1 eq_refl) as [Habsent _];
      [split; [discriminate | reflexivity] | reflexivity |].
    apply Habsent. intros u [].
  - destruct (get_me_reads_store no_numeric_text (calm 300) member_claims
                world_alice_disabled) as (Hint & _).
    destruct (Hint 1 eq_refl) as [_ Hfound];
      [split; [discriminate | reflexivity] | reflexivity |].
    rewrite (Hfound _ eq_refl). reflexivity.
Defined.

Lemma login_stamps_last_login_only_witness :
  map u_last_login
      (users (snd (login config (calm 300) alice_login peer world_with_alice)))
  = [Some 300]
  /\ List.length (users (snd (login config (calm 300) alice_login peer
                                world_with_alice))) = 1%nat.
Proof.
  destruct (login_stamps_last_login_only config (calm 300) alice_login peer
              world_with_alice
              (registered_row (calm 100) alice empty_world))
    as (_ & Hlen & _); try reflexivity.
  split; [reflexivity | exact Hlen].
Defined.

Lemma admin_token_reads_back :
  jwt_reads_back (token_payload 100 2 "alice@example.com" "admin")
                 (JWT_SECRET config).
Proof. vm_compute. reflexivity. Defined.

Lemma registered_role_passes_gate_witness :
  fst (require_role config ["admin"] (calm 300) admin_token world_with_admin)
  = Return (claims 2 "admin" (JInt 86500)).
Proof.
  exact (f_equal fst
           (registered_role_passes_gate config (calm 100) (calm 300)
              self_made_admin peer world_with_bob world_with_admin
              world_with_admin admin_response ["admin"]
              admin_registered admin_token_reads_back eq_refl
              (or_introl eq_refl))).
Defined.

Lemma parse_location_by_words_witness :
  parse_location "  new   york   ny " = ("new york", "NY")
  /\ parse_location "Dallas" = ("Dallas", "TX")
  /\ parse_location "   " = ("", "TX").
Proof.
  split; [|split].
  - destruct (parse_location_by_words "  new   york   ny " eq_refl)
      as (_ & _ & Hmany).
    rewrite Hmany; [reflexivity | simpl; lia].
  - destruct (parse_location_by_words "Dallas" eq_refl) as (_ & Hone & _).
    apply (Hone "Dallas" eq_refl).
  - destruct (parse_location_by_words "   " eq_refl) as (Hnone & _).
    apply (Hnone eq_refl).
Defined.

Lemma parse_location_by_commas_witness :
  parse_location "123 Main St, Plano, TX" = ("123 Main St", "Plano")
  /\ parse_location "plano ,tx" = ("plano", "tx")
  /\ parse_location "Plano," = ("Plano", "").
Proof.
  split; [|split].
  - apply (parse_location_by_commas "123 Main St, Plano, TX"
             "123 Main St" " Plano" " TX" eq_refl eq_refl eq_refl).
    right. reflexivity.
  - apply (parse_location_by_commas "plano ,tx" "plano " "tx" ""
             eq_refl eq_refl eq_refl).
    left. reflexivity.
  - apply (parse_location_by_commas "Plano," "Plano" "" ""
             eq_refl eq_refl eq_refl).
    left. reflexivity.
Defined.

Lemma new_york_words : Forall is_word ["New"; "York"].
Proof.
  repeat constructor; try discriminate;
    intros c Hc; cbn [has_char] in Hc;
    repeat (apply orb_true_iff in Hc; destruct Hc as [Hc | Hc];
            [apply Ascii.eqb_eq in Hc; subst c; reflexivity|]);
    discriminate.
Defined.

Lemma ny_word : is_word "NY".
Proof.
  split; [discriminate|].
  intros c Hc; cbn [has_char] in Hc;
    repeat (apply orb_true_iff in Hc; destruct Hc as [Hc | Hc];
            [apply Ascii.eqb_eq in Hc; subst c; reflexivity|]);
    discriminate.
Defined.

Lemma parse_location_reads_back_witness :
  parse_location "New York, NY" = ("New York", "NY")
  /\ parse_location "New York NY" = ("New York", "NY").
Proof.
  apply (parse_location_reads_back ["New"; "York"] "NY").
  - discriminate.
  - reflexivity.
  - reflexivity.
  - exact new_york_words.
  - intros w [<- | [<- | []]]; reflexivity.
  - exact ny_word.
  - reflexivity.
Defined.

Lemma invalid_token_stops_every_route_witness :
  exists detail,
    search_properties_route config (calm 300) stale_token austin peer empty_world
    = (HTTPException 401 detail, empty_world)
    /\ get_me_route config no_numeric_text (calm 300) stale_token empty_world
       = (HTTPException 401 detail, empty_world).
Proof.
  destruct (invalid_token_stops_every_route config no_numeric_text (calm 300)
              stale_token empty_world)
    as (detail & Hsearch & _ & _ & Hme); [reflexivity|].
  exists detail. split; [apply Hsearch | exact Hme].
Defined.

Lemma lookup_property_forwards_first_candidate_witness :
  fst (lookup_property (calm 300) main_street peer member_claims empty_world)
  = Return (JObj
      [("autocomplete",
        JObj [("data", JArr [JObj [("address_id", JStr "A-17")]])]);
       ("detail", JObj [("data", JArr [JObj [("owner", JStr "J. Doe")]])])]).
Proof.
  apply (lookup_property_forwards_first_candidate (calm 300) main_street peer
           member_claims empty_world (JInt 1) (SqlInt 1) "10.0.0.7"
           [("data", JArr [JObj [("address_id", JStr "A-17")]])]
           [("address_id", JStr "A-17")] []
           (JObj [("data", JArr [JObj [("owner", JStr "J. Doe")]])]));
    reflexivity.
Defined.

End MoreRuns.
